(** * ClickableUrls: a shallow embedding of [clickable_urls.py]

    The plugin keeps three class-level tables ([urls_for_view],
    [scopes_for_view], [ignored_views]) and a semaphore, and talks to the
    host editor through a [view] object.  The tables and the host calls the
    plugin issues are threaded through a small state-and-exception monad;
    the host (settings file, editor version, file system, browser launcher)
    is a read-only record. *)

From Stdlib Require Import ZArith String Ascii.
From stdpp Require Import base option list gmap sets strings pretty.

Local Open Scope Z_scope.

(** ** Python values and primitives used by the plugin *)

Module Py.

(** The exceptions the code below can meet. *)
Inductive exn :=
| IndexError
| NameError (name : string)
| WebbrowserError.

(** [del l[i]] for a list and a non-negative index: the element at position
    [i] is removed; an index past the end raises [IndexError]. *)
Definition list_del {A} (i : nat) (l : list A) : exn + list A :=
  if decide (i < length l)%nat then inr (delete i l) else inl IndexError.

(** [l[0]]. *)
Definition list_first {A} (l : list A) : exn + A :=
  match l with
  | [] => inl IndexError
  | x :: _ => inr x
  end.

(** [range(lo, hi)] over integers. *)
Definition range (lo hi : Z) : list Z :=
  (λ k : nat, lo + Z.of_nat k) <$> seq 0 (Z.to_nat (hi - lo)).

(** Truth value of a [str]: non-empty. *)
Definition str_truth (s : string) : bool :=
  match s with
  | EmptyString => false
  | String _ _ => true
  end.

(** [s1 < s2] and [s1 >= s2] on [str]: lexicographic on code points. *)
Definition str_lt (s1 s2 : string) : bool := String.ltb s1 s2.
Definition str_ge (s1 s2 : string) : bool := negb (String.ltb s1 s2).

(** [set(l)]. *)
Definition set_of {A} `{Countable A} (l : list A) : gset A := list_to_set l.

(** [d.setdefault(k, []).append(v)] on a dict that keeps insertion order,
    kept as an association list with distinct keys. *)
Fixpoint setdefault_append {V} (k : string) (v : V)
    (d : list (string * list V)) : list (string * list V) :=
  match d with
  | [] => [(k, [v])]
  | (k', vs) :: d' =>
      if decide (k' = k) then (k', vs ++ [v]) :: d'
      else (k', vs) :: setdefault_append k v d'
  end.

(** [d.keys()]. *)
Definition keys {V} (d : list (string * V)) : list string := d.*1.

(** ["%u" % n] for a length. *)
Definition fmt_u (n : nat) : string := pretty n.

End Py.

(** ** The host editor's objects *)

(** [sublime.Region]: a pair of offsets [a], [b] with the methods the plugin
    calls.  [contains] on a point is inclusive at both ends
    ([begin() <= pt <= end()]); on a region it asks for both end points.
    The truth value of a region is that of its [__len__], i.e. [size()]. *)
Module Region.

Record t := mk { a : Z; b : Z }.

Definition begin (r : t) : Z := Z.min (a r) (b r).
Definition end_ (r : t) : Z := Z.max (a r) (b r).
Definition size (r : t) : Z := Z.abs (a r - b r).
Definition empty (r : t) : bool := a r =? b r.

Definition contains_point (r : t) (pt : Z) : bool :=
  (begin r <=? pt) && (pt <=? end_ r).

Definition contains (r x : t) : bool :=
  contains_point r (a x) && contains_point r (b x).

Definition truth (r : t) : bool := negb (size r =? 0).

End Region.

(** A [sublime.View] as the plugin sees it: its identifier, the host's regex
    search over its text, the scope label at an offset, the text of a
    region and the current selection. *)
Module View.

Record t := mk {
  id : nat;
  find_all : string → list Region.t;
  scope_name : Z → string;
  substr : Region.t → string;
  sel : list Region.t
}.

End View.

(** [ClickableUrls.sublime-settings], with the defaults of the [get] calls
    already applied. *)
Module Settings.

Record t := mk {
  auto_find_urls : bool;
  highlight_urls : bool;
  max_url_limit : Z;
  file_folder_regex : string;
  clickable_urls_browser : option string
}.

Definition DEFAULT_MAX_URLS : Z := 200.

(** The settings file left empty. *)
Definition defaults : t :=
  mk true true DEFAULT_MAX_URLS "" None.

End Settings.

(** How [webbrowser.get(browser).open(url, autoraise=True)] ends: [get]
    raises [webbrowser.Error] when it finds no usable browser; [open]
    returns [True] when the browser was started and [False] when starting
    it failed. *)
Inductive BrowserOutcome :=
| Returned (launched : bool)
| RaisedError.

(** What the plugin reads from its surroundings but never writes. *)
Record Host := mkHost {
  version : string;                        (* sublime.version() *)
  load_settings : Settings.t;              (* sublime.load_settings(...) *)
  isfile : string → bool;                  (* os.path.isfile *)
  browser_open : option string → string → BrowserOutcome
    (* webbrowser.get(browser).open(url, autoraise=True) *)
}.

(** Flags passed to [view.add_regions]. *)
Inductive DrawFlag :=
| DRAW_NO_FILL
| DRAW_NO_OUTLINE
| DRAW_SOLID_UNDERLINE
| DRAW_EMPTY_AS_OVERWRITE.

(** Calls the plugin makes on the host, in the order they are made. *)
Inductive Event :=
| Print (msg : string)
| AddRegions (view : nat) (key : string) (regions : list Region.t)
    (scope : string) (flags : list DrawFlag)
| EraseRegions (view : nat) (key : string)
| OpenFile (view : nat) (path : string)
| BrowserOpen (browser : option string) (url : string)
| ErrorMessage (msg : string).

(** ** Plugin state and the monad the handlers run in *)

(** The class attributes of [UrlHighlighter] together with the host calls
    made so far. *)
Record State := mkState {
  urls_for_view : gmap nat (list Region.t);
  scopes_for_view : gmap nat (list string);
  ignored_views : list nat;
  highlight_semaphore : nat;
  trace : list Event
}.

(** The state at import time: empty tables, [threading.Semaphore()] at 1. *)
Definition initial : State := mkState ∅ ∅ [] 1 [].

(** A handler returns, raises, or blocks on the semaphore. *)
Inductive Res (A : Type) :=
| Ok (x : A)
| Raise (e : Py.exn)
| Block.
Arguments Ok {A} x.
Arguments Raise {A} e.
Arguments Block {A}.

Definition M (A : Type) : Type := State → Res A * State.

Definition ret {A} (x : A) : M A := λ s, (Ok x, s).

Definition bind {A B} (m : M A) (k : A → M B) : M B := λ s,
  match m s with
  | (Ok x, s') => k x s'
  | (Raise e, s') => (Raise e, s')
  | (Block, s') => (Block, s')
  end.

#[global] Instance M_ret : MRet M := @ret.
#[global] Instance M_bind : MBind M := λ A B k m, bind m k.

Definition raise {A} (e : Py.exn) : M A := λ s, (Raise e, s).

Definition lift {A} (r : Py.exn + A) : M A :=
  match r with
  | inl e => raise e
  | inr x => ret x
  end.

Definition get : M State := λ s, (Ok s, s).

Definition emit (e : Event) : M unit := λ s,
  (Ok tt, mkState (urls_for_view s) (scopes_for_view s) (ignored_views s)
            (highlight_semaphore s) (trace s ++ [e])).

Definition set_urls_for_view (m : gmap nat (list Region.t)) : M unit := λ s,
  (Ok tt, mkState m (scopes_for_view s) (ignored_views s)
            (highlight_semaphore s) (trace s)).

Definition set_scopes_for_view (m : gmap nat (list string)) : M unit := λ s,
  (Ok tt, mkState (urls_for_view s) m (ignored_views s)
            (highlight_semaphore s) (trace s)).

Definition set_ignored_views (l : list nat) : M unit := λ s,
  (Ok tt, mkState (urls_for_view s) (scopes_for_view s) l
            (highlight_semaphore s) (trace s)).

(** [Semaphore.acquire()]: blocks while the counter is zero. *)
Definition acquire : M unit := λ s,
  match highlight_semaphore s with
  | O => (Block, s)
  | S n => (Ok tt, mkState (urls_for_view s) (scopes_for_view s)
                     (ignored_views s) n (trace s))
  end.

(** [Semaphore.release()]. *)
Definition release : M unit := λ s,
  (Ok tt, mkState (urls_for_view s) (scopes_for_view s) (ignored_views s)
            (S (highlight_semaphore s)) (trace s)).

(** [try: body finally: fin]. *)
Definition try_finally {A} (body : M A) (fin : M unit) : M A := λ s,
  match body s with
  | (Ok x, s') => (fin ;; mret x) s'
  | (Raise e, s') => (fin ;; raise e) s'
  | (Block, s') => (Block, s')
  end.

(** [try: body except exc: handler], for one exception class. *)
Definition try_except {A} (body : M A) (catches : Py.exn → bool)
    (handler : M A) : M A := λ s,
  match body s with
  | (Raise e, s') => if catches e then handler s' else (Raise e, s')
  | r => r
  end.

(** [for x in l: body x]. *)
Fixpoint for_each {A} (l : list A) (body : A → M unit) : M unit :=
  match l with
  | [] => mret tt
  | x :: l' => body x ;; for_each l' body
  end.

(** ** [UrlHighlighter] *)

Module UrlHighlighter.

(** The backslash of the Python literal is written twice there and is one
    character of the pattern. *)
Definition URL_REGEX : string :=
  "\bhttps?://[-A-Za-z0-9+&@#/%?=~_()|!:,.;']*[-A-Za-z0-9+&@#/%=~_(|]".

Definition DEFAULT_MAX_URLS : Z := Settings.DEFAULT_MAX_URLS.

(** The key of a marker group: [u'clickable-urls ' + scope_name]. *)
Definition region_key (scope_name : string) : string :=
  "clickable-urls " +:+ scope_name.

Section WithHost.

Variable host : Host.

(** [underline_regions]: native underlining from build 3019 on, one empty
    region per character before. *)
Definition underline_regions (view : View.t) (scope_name : string)
    (regions : list Region.t) : M unit :=
  if Py.str_ge (version host) "3019" then
    emit (AddRegions (View.id view) (region_key scope_name) regions scope_name
            [DRAW_NO_FILL; DRAW_NO_OUTLINE; DRAW_SOLID_UNDERLINE])
  else
    let char_regions :=
      region ← regions;
      pos ← Py.range (Region.a region) (Region.b region);
      [Region.mk pos pos] in
    emit (AddRegions (View.id view) (region_key scope_name) char_regions
            scope_name [DRAW_EMPTY_AS_OVERWRITE]).

(** [update_view_scopes]: erase the groups of the scopes that were stored
    and are not among the new ones, then store the new ones.  The set
    difference is walked in the order of the set's elements. *)
Definition update_view_scopes (view : View.t) (new_scopes : list string)
    : M unit :=
  s ← get;
  let old_scopes := scopes_for_view s !! View.id view in
  match old_scopes with
  | Some ((_ :: _) as old_scopes) =>
      let unused_scopes := Py.set_of old_scopes ∖ Py.set_of new_scopes in
      for_each (elements unused_scopes) (λ unused_scope_name,
        emit (EraseRegions (View.id view) (region_key unused_scope_name)))
  | _ => mret tt
  end;;
  s ← get;
  set_scopes_for_view (<[View.id view := new_scopes]> (scopes_for_view s)).

(** The dict [scope_map] built by the first loop of [highlight_urls]. *)
Definition scope_map_of (view : View.t) (urls : list Region.t)
    : list (string * list Region.t) :=
  foldl (λ scope_map url,
           let scope_name := View.scope_name view (Region.a url) in
           Py.setdefault_append scope_name url scope_map)
        [] urls.

(** [highlight_urls]: one marker group per lexical scope.  The second loop
    walks the dict; [scope_map[scope_name]] is the list paired with the key. *)
Definition highlight_urls (view : View.t) (urls : list Region.t) : M unit :=
  let scope_map := scope_map_of view urls in
  for_each scope_map (λ '(scope_name, regions),
    underline_regions view scope_name regions);;
  update_view_scopes view (Py.keys scope_map).

(** The pattern handed to [view.find_all]. *)
Definition combined_regex (file_folder_regex : string) : string :=
  if Py.str_truth file_folder_regex
  then "(" +:+ URL_REGEX +:+ ")|(" +:+ file_folder_regex +:+ ")"
  else URL_REGEX.

(** [update_url_highlights]: the logic entry point. *)
Definition update_url_highlights (view : View.t) (force : bool) : M unit :=
  let settings := load_settings host in
  if negb force && negb (Settings.auto_find_urls settings) then mret tt else
  let should_highlight_urls := Settings.highlight_urls settings in
  let max_url_limit := Settings.max_url_limit settings in
  let file_folder_regex := Settings.file_folder_regex settings in
  let combined_regex := combined_regex file_folder_regex in
  s ← get;
  if decide (View.id view ∈ ignored_views s) then mret tt else
  let urls := View.find_all view combined_regex in
  if Z.of_nat (length urls) >? max_url_limit then
    emit (Print ("UrlHighlighter: ignoring view with "
                 +:+ Py.fmt_u (length urls) +:+ " URLs"));;
    s ← get;
    set_ignored_views (ignored_views s ++ [View.id view])
  else
    s ← get;
    set_urls_for_view (<[View.id view := urls]> (urls_for_view s));;
    let should_highlight_urls :=
      Settings.highlight_urls (load_settings host) in
    if should_highlight_urls then highlight_urls view urls else mret tt.

(** [update_url_highlights_async]: the same under the semaphore. *)
Definition update_url_highlights_async (view : View.t) (force : bool)
    : M unit :=
  acquire;;
  try_finally (update_url_highlights view force) release.

Definition on_activated (view : View.t) : M unit :=
  update_url_highlights view false.

(** Blocking handlers, active before build 3000. *)
Definition on_load (view : View.t) : M unit :=
  if Py.str_lt (version host) "3000"
  then update_url_highlights view false else mret tt.

Definition on_modified (view : View.t) : M unit :=
  if Py.str_lt (version host) "3000"
  then update_url_highlights view false else mret tt.

(** Asynchronous listeners. *)
Definition on_load_async (view : View.t) : M unit :=
  update_url_highlights_async view false.

Definition on_modified_async (view : View.t) : M unit :=
  update_url_highlights_async view false.

(** [on_close]: the loop over the two dicts and the list, unrolled.  On a
    dict [del map[k]] removes the key; on the list [ignored_views] it
    removes the element at index [k]. *)
Definition on_close (view : View.t) : M unit :=
  s ← get;
  (if decide (View.id view ∈ dom (urls_for_view s))
   then set_urls_for_view (delete (View.id view) (urls_for_view s))
   else mret tt);;
  s ← get;
  (if decide (View.id view ∈ dom (scopes_for_view s))
   then set_scopes_for_view (delete (View.id view) (scopes_for_view s))
   else mret tt);;
  s ← get;
  (if decide (View.id view ∈ ignored_views s)
   then l ← lift (Py.list_del (View.id view) (ignored_views s));
        set_ignored_views l
   else mret tt).

End WithHost.

End UrlHighlighter.

(** ** Commands *)

Section OpenUrl.

Variable host : Host.

(** The double quote, for the one message that holds it. *)
Definition dquote : string := String (ascii_of_nat 34) EmptyString.

Definition browser_error_message : string :=
  "Failed to open browser. See " +:+ dquote +:+ "Customizing the browser"
  +:+ dquote +:+ " in the README.".

(** [webbrowser.get(browser).open(url, autoraise=True)] as a statement:
    the call is made; it raises [webbrowser.Error], or it returns a value
    that the statement drops. *)
Definition webbrowser_open (browser : option string) (url : string)
    : M unit :=
  emit (BrowserOpen browser url);;
  match browser_open host browser url with
  | Returned _ => mret tt
  | RaisedError => raise Py.WebbrowserError
  end.

Definition is_webbrowser_error (e : Py.exn) : bool :=
  match e with
  | Py.WebbrowserError => true
  | _ => false
  end.

(** [open_url]. *)
Definition open_url (url : string) (view : View.t) : M unit :=
  if isfile host url then
    emit (OpenFile (View.id view) url)
  else
    let browser := Settings.clickable_urls_browser (load_settings host) in
    try_except (webbrowser_open browser url) is_webbrowser_error
      (emit (ErrorMessage browser_error_message)).

(** Evaluation of a name that is bound neither in the running function, nor
    at module level, nor among the builtins. *)
Definition unbound_name {A} (name : string) : M A :=
  raise (Py.NameError name).

End OpenUrl.

Module FindUrlsCommand.

Definition run (host : Host) (self_view : View.t) : M unit :=
  UrlHighlighter.update_url_highlights_async host self_view true.

End FindUrlsCommand.

Module OpenUrlUnderCursorCommand.

(** [next((url for url in urls if url.contains(selection)), None)]. *)
Definition first_containing (urls : list Region.t) (selection : Region.t)
    : option Region.t :=
  List.find (λ url, Region.contains url selection) urls.

Definition run (host : Host) (self_view : View.t) : M unit :=
  s ← get;
  match urls_for_view s !! View.id self_view with
  | Some urls =>
      selection ← lift (Py.list_first (View.sel self_view));
      if Region.empty selection then
        match first_containing urls selection with
        | None => mret tt
        | Some selection =>
            if negb (Region.truth selection) then mret tt
            else
              let url := View.substr self_view selection in
              open_url host url self_view
        end
      else
        let url := View.substr self_view selection in
        open_url host url self_view
  | None => mret tt
  end.

End OpenUrlUnderCursorCommand.

Module OpenAllUrlsCommand.

(** The set the loop of [run] walks. *)
Definition url_set (self_view : View.t) (urls : list Region.t)
    : gset string :=
  Py.set_of (View.substr self_view <$> urls).

(** [run]: the second argument of the call in the loop body is the bare name
    [view]; the method binds [self], [edit] and [url] only (its view is
    [self.view]) and the module defines no [view]. *)
Definition run (host : Host) (self_view : View.t) : M unit :=
  s ← get;
  match urls_for_view s !! View.id self_view with
  | Some urls =>
      for_each (elements (url_set self_view urls)) (λ url,
        view ← unbound_name "view";
        open_url host url view)
  | None => mret tt
  end.

End OpenAllUrlsCommand.

(** ** Entry points running side by side

    The host may run several handlers at once (the blocking ones on its main
    thread, the [_async] ones on its worker thread).  For the locking
    discipline only the shape of each entry point matters: where it takes and
    gives back [highlight_semaphore], where the scan ([view.find_all])
    starts, which tables it writes, and where [update_url_highlights]
    returns.  A thread is the list of those steps still to run. *)

Module Threads.

Inductive Table := UrlsForView | ScopesForView | IgnoredViews.

Inductive Instr :=
| Acquire              (* highlight_semaphore.acquire() *)
| Release              (* highlight_semaphore.release() *)
| FindAll              (* view.find_all(combined_regex) *)
| Write (t : Table)    (* an assignment, append or del on a table *)
| Return.              (* update_url_highlights returns *)

(** The ways a call of [update_url_highlights] can go: its two early
    returns, taken before the scan, and the three ways of a scan. *)
Inductive Way :=
| Gated                (* auto_find_urls off and not forced *)
| AlreadyIgnored       (* the view is in ignored_views *)
| TooMany              (* over the limit: the view is ignored *)
| Stored               (* stored, highlight_urls off *)
| Highlighted.         (* stored and highlighted *)

Definition update_url_highlights (w : Way) : list Instr :=
  match w with
  | Gated | AlreadyIgnored => [Return]
  | TooMany => [FindAll; Write IgnoredViews; Return]
  | Stored => [FindAll; Write UrlsForView; Return]
  | Highlighted => [FindAll; Write UrlsForView; Write ScopesForView; Return]
  end.

Definition update_url_highlights_async (w : Way) : list Instr :=
  Acquire :: update_url_highlights w ++ [Release].

Inductive EntryPoint :=
| OnActivated
| OnLoad
| OnModified
| OnLoadAsync
| OnModifiedAsync
| OnClose
| FindUrlsCommand.

(** The steps of an entry point on a host of the given version, for a scan
    going the given way. *)
Definition program (version : string) (e : EntryPoint) (w : Way)
    : list Instr :=
  match e with
  | OnActivated => update_url_highlights w
  | OnLoad | OnModified =>
      if Py.str_lt version "3000" then update_url_highlights w else []
  | OnLoadAsync | OnModifiedAsync | FindUrlsCommand =>
      update_url_highlights_async w
  | OnClose => [Write UrlsForView; Write ScopesForView; Write IgnoredViews]
  end.

(** The entry points that go through [update_url_highlights_async]. *)
Definition takes_lock (e : EntryPoint) : bool :=
  match e with
  | OnLoadAsync | OnModifiedAsync | FindUrlsCommand => true
  | _ => false
  end.

Record Thread := mkThread {
  code : list Instr;       (* steps still to run *)
  holds : nat;             (* acquisitions not yet released *)
  scanning : bool          (* between find_all and the return *)
}.

Record Sys := mkSys {
  semaphore : nat;
  threads : list Thread
}.

(** One step of one thread; [None] when it has finished or must wait. *)
Definition exec (sem : nat) (t : Thread) : option (nat * Thread) :=
  match code t with
  | [] => None
  | Acquire :: rest =>
      match sem with
      | O => None
      | S n => Some (n, mkThread rest (S (holds t)) (scanning t))
      end
  | Release :: rest => Some (S sem, mkThread rest (pred (holds t)) (scanning t))
  | FindAll :: rest => Some (sem, mkThread rest (holds t) true)
  | Write _ :: rest => Some (sem, mkThread rest (holds t) (scanning t))
  | Return :: rest => Some (sem, mkThread rest (holds t) false)
  end.

(** Any thread that can move may move next. *)
Inductive step : Sys → Sys → Prop :=
| step_thread sys i t sem' t' :
    threads sys !! i = Some t →
    exec (semaphore sys) t = Some (sem', t') →
    step sys (mkSys sem' (<[i := t']> (threads sys))).

(** Threads at their start, the semaphore at its initial value 1. *)
Definition spawn (progs : list (list Instr)) : Sys :=
  mkSys 1 ((λ c, mkThread c 0 false) <$> progs).

Definition reachable (progs : list (list Instr)) (sys : Sys) : Prop :=
  rtc step (spawn progs) sys.

(** How many threads are inside a scan-and-store sequence. *)
Definition scans_running (sys : Sys) : nat :=
  length (filter (λ t, scanning t = true) (threads sys)).

(** A thread whose next step writes a table without holding the semaphore. *)
Definition writes_unlocked (t : Thread) : bool :=
  match code t, holds t with
  | Write _ :: _, O => true
  | _, _ => false
  end.

(** The threads started for a list of entry points, each with the way its
    scan goes. *)
Definition programs (version : string) (runs : list (EntryPoint * Way))
    : list (list Instr) :=
  (λ '(e, w), program version e w) <$> runs.

(** The locking discipline for a set of entry points started together:
    however they interleave, at most one scan-and-store sequence is under
    way and no table is written without the semaphore. *)
Definition lock_discipline (version : string)
    (runs : list (EntryPoint * Way)) : Prop :=
  ∀ sys, reachable (programs version runs) sys →
    (scans_running sys ≤ 1)%nat ∧
    Forall (λ t, writes_unlocked t = false) (threads sys).

(** What a step does to the thread that takes it. *)
Definition local (t : Thread) : Thread :=
  match exec 1 t with
  | Some (_, t') => t'
  | None => t
  end.

(** A thread [k] steps into [update_url_highlights_async]. *)
Definition at_step (w : Way) (k : nat) : Thread :=
  Nat.iter k local (mkThread (update_url_highlights_async w) 0 false).

Definition on_track (t : Thread) : Prop :=
  ∃ w k, (k ≤ 6)%nat ∧ t = at_step w k.

(** The semaphore counts the acquisitions that are still possible. *)
Definition balanced (sys : Sys) : Prop :=
  (semaphore sys + sum_list_with holds (threads sys) = 1)%nat.

(** A thread that has nothing to do with the semaphore: it holds nothing
    and none of its steps takes it or gives it back. *)
Definition lock_free (t : Thread) : Prop :=
  holds t = 0%nat ∧ Forall (λ i, i ≠ Acquire ∧ i ≠ Release) (code t).

(** Where the thread started for an entry point can be. *)
Definition thread_ok (r : EntryPoint * Way) (t : Thread) : Prop :=
  if takes_lock r.1 then on_track t else lock_free t.

(** How many threads of entry points that go through
    [update_url_highlights_async] are inside a scan-and-store sequence.
    The threads stand in the order of the entry points they were started
    for. *)
Definition async_scans_running (runs : list (EntryPoint * Way))
    (sys : Sys) : nat :=
  length (filter (λ rt, takes_lock rt.1.1 = true ∧ scanning rt.2 = true)
            (zip runs (threads sys))).

(** The locking discipline of the entry points that take the semaphore,
    whatever other entry points run beside them: however all of them
    interleave, at most one of the lock-taking ones is inside a
    scan-and-store sequence, and none of these writes a table without the
    semaphore.  The other entry points never hold it. *)
Definition async_discipline (version : string)
    (runs : list (EntryPoint * Way)) : Prop :=
  ∀ sys, reachable (programs version runs) sys →
    (async_scans_running runs sys ≤ 1)%nat ∧
    Forall (λ rt, takes_lock rt.1.1 = true → writes_unlocked rt.2 = false)
      (zip runs (threads sys)) ∧
    Forall (λ rt, takes_lock rt.1.1 = false → holds rt.2 = 0%nat)
      (zip runs (threads sys)).

End Threads.

(** ** Vocabulary of the statements *)

(** The state with further host calls recorded and nothing else changed. *)
Definition with_trace (s : State) (evs : list Event) : State :=
  mkState (urls_for_view s) (scopes_for_view s) (ignored_views s)
    (highlight_semaphore s) (trace s ++ evs).

(** The state with the semaphore counter set and nothing else changed. *)
Definition with_semaphore (n : nat) (s : State) : State :=
  mkState (urls_for_view s) (scopes_for_view s) (ignored_views s) n (trace s).

(** The scope label of a match: the one at its start offset. *)
Definition label (view : View.t) (url : Region.t) : string :=
  View.scope_name view (Region.a url).

(** The matches that carry a given scope label, in their order. *)
Definition group_of (view : View.t) (urls : list Region.t) (scope : string)
    : list Region.t :=
  filter (λ url, label view url = scope) urls.

(** The call that draws the marker group of one scope label. *)
Definition marker_group (host : Host) (view : View.t) (scope : string)
    (regions : list Region.t) : Event :=
  if Py.str_ge (version host) "3019" then
    AddRegions (View.id view) (UrlHighlighter.region_key scope) regions scope
      [DRAW_NO_FILL; DRAW_NO_OUTLINE; DRAW_SOLID_UNDERLINE]
  else
    AddRegions (View.id view) (UrlHighlighter.region_key scope)
      (r ← regions; (λ pos, Region.mk pos pos) <$>
                      Py.range (Region.a r) (Region.b r))
      scope [DRAW_EMPTY_AS_OVERWRITE].

(** The calls that erase the marker groups of a list of scope labels. *)
Definition erasures (view : View.t) (scopes : list string) : list Event :=
  (λ scope, EraseRegions (View.id view) (UrlHighlighter.region_key scope))
    <$> scopes.

(** The scope labels stored for a view; none when it has no entry. *)
Definition stored_scopes (s : State) (view : View.t) : list string :=
  default [] (scopes_for_view s !! View.id view).

(** The matches stored for a view; none when it has no entry. *)
Definition stored_matches (s : State) (view : View.t) : list Region.t :=
  default [] (urls_for_view s !! View.id view).

(** Every match lies in a marker group drawn among the given calls, the one
    of its scope label. *)
Definition highlighted (host : Host) (view : View.t) (urls : list Region.t)
    (evs : list Event) : Prop :=
  ∀ url, url ∈ urls →
    marker_group host view (label view url) (group_of view urls (label view url))
      ∈ evs.

Definition is_add (e : Event) : bool :=
  match e with
  | AddRegions _ _ _ _ _ => true
  | _ => false
  end.

Definition is_erase (e : Event) : bool :=
  match e with
  | EraseRegions _ _ => true
  | _ => false
  end.

(** In a list of calls, every call of the first kind comes before every
    call of the second kind. *)
Definition all_before (first second : Event → bool) (evs : list Event)
    : Prop :=
  ∀ i j e1 e2,
    evs !! i = Some e1 → evs !! j = Some e2 →
    first e1 = true → second e2 = true → (i < j)%nat.

(** A cursor offset lies in the closed range of a match. *)
Definition in_closed_range (m : Region.t) (pt : Z) : Prop :=
  Region.begin m ≤ pt ≤ Region.end_ m.

(** A cursor offset lies in the half-open range of a match. *)
Definition in_half_open_range (m : Region.t) (pt : Z) : Prop :=
  Region.begin m ≤ pt < Region.end_ m.

(** [m] is the first of [urls], in their order, whose range holds [pt] in
    the sense of [inside]; [None] when there is none. *)
Definition first_match (inside : Region.t → Z → Prop)
    (urls : list Region.t) (pt : Z) (m : option Region.t) : Prop :=
  match m with
  | Some m =>
      ∃ i : nat, urls !! i = Some m ∧ inside m pt ∧
        ∀ (j : nat) m', (j < i)%nat → urls !! j = Some m' → ¬ inside m' pt
  | None => ∀ m', m' ∈ urls → ¬ inside m' pt
  end.

(** The marker groups drawn for a list of scope labels, one per label. *)
Definition marker_groups (host : Host) (view : View.t)
    (urls : list Region.t) (scopes : list string) : list Event :=
  (λ scope, marker_group host view scope (group_of view urls scope))
    <$> scopes.

(** The state in which a view's matches have been stored. *)
Definition store_urls (view : View.t) (urls : list Region.t) (s : State)
    : State :=
  mkState (<[View.id view := urls]> (urls_for_view s)) (scopes_for_view s)
    (ignored_views s) (highlight_semaphore s) (trace s).

(** The matches a scan of the view finds under the host's settings. *)
Definition scan (host : Host) (view : View.t) : list Region.t :=
  View.find_all view
    (UrlHighlighter.combined_regex
       (Settings.file_folder_regex (load_settings host))).

(** The ceiling policy in the specification's words, for one scan of a view
    from a state: within the ceiling the matches are stored and highlighted;
    over it the view is ignored and has no stored matches. *)
Definition ceiling_as_specified (host : Host) (view : View.t) (force : bool)
    (s : State) : Prop :=
  let urls := scan host view in
  let limit := Settings.max_url_limit (load_settings host) in
  let s' := (UrlHighlighter.update_url_highlights host view force s).2 in
  (Z.of_nat (length urls) ≤ limit →
     urls_for_view s' !! View.id view = Some urls ∧
     ∃ evs, trace s' = trace s ++ evs ∧ highlighted host view urls evs) ∧
  (limit < Z.of_nat (length urls) →
     View.id view ∈ ignored_views s' ∧ stored_matches s' view = []).

(** Open-under-cursor in the specification's words, for a zero-width
    selection at [pt]: the text of the first stored match whose half-open
    range holds [pt] is opened, and nothing is when there is none. *)
Definition under_cursor_as_specified (host : Host) (view : View.t)
    (s : State) (pt : Z) : Prop :=
  ∃ m, first_match in_half_open_range (stored_matches s view) pt m ∧
    OpenUrlUnderCursorCommand.run host view s =
      match m with
      | Some m => open_url host (View.substr view m) view s
      | None => (Ok tt, s)
      end.

(** Opening a string in the specification's words: an existing local file
    is opened as a document and no browser call is made; any other string
    is handed to the browser launcher, and a launch that fails is shown as
    the modal error message, nothing being raised. *)
Definition open_url_as_specified (host : Host) (url : string)
    (view : View.t) (s : State) : Prop :=
  let browser := Settings.clickable_urls_browser (load_settings host) in
  (isfile host url = true →
     open_url host url view s
       = (Ok tt, with_trace s [OpenFile (View.id view) url])) ∧
  (isfile host url = false →
     ∃ evs,
       open_url host url view s = (Ok tt, with_trace s evs) ∧
       BrowserOpen browser url ∈ evs ∧
       (browser_open host browser url ≠ Returned true →
        ErrorMessage browser_error_message ∈ evs)).

(** ** Sample hosts, views and states *)

(** A recent host on which no string is a local file and the browser
    starts. *)
Definition host_with (settings : Settings.t) : Host :=
  mkHost "3126" settings (λ _, false) (λ _ _, Returned true).

Definition default_host : Host := host_with Settings.defaults.

(** A host whose browser cannot be started: [open] returns [False]. *)
Definition host_browser_fails : Host :=
  mkHost "3126" Settings.defaults (λ _, false) (λ _ _, Returned false).

(** Highlighting switched off in the settings. *)
Definition host_no_highlight : Host :=
  host_with (Settings.mk true false 200 "" None).

(** A ceiling of one match. *)
Definition host_limit_1 : Host :=
  host_with (Settings.mk true true 1 "" None).

(** View 7 with the given matches and selection: offsets below 8 carry the
    label "a" and the text "http://a", the others "b" and "http://b". *)
Definition view_7 (matches sel : list Region.t) : View.t :=
  View.mk 7 (λ _, matches)
    (λ pt, if pt <? 8 then "a" else "b")
    (λ r, if Region.a r <? 8 then "http://a" else "http://b")
    sel.

Definition two_matches : list Region.t := [Region.mk 0 5; Region.mk 10 15].

(** The two matches stored for view 7, nothing else. *)
Definition two_stored : State :=
  mkState {[ 7%nat := two_matches ]} ∅ [] 1 [].

(** View 7 after a scan that found one match under a ceiling of one. *)
Definition one_scanned : State :=
  (UrlHighlighter.update_url_highlights host_limit_1
     (view_7 [Region.mk 0 5] []) false initial).2.

(** View 7 after a first scan that found two matches under a ceiling of
    one. *)
Definition over_limit : State :=
  (UrlHighlighter.update_url_highlights host_limit_1
     (view_7 two_matches []) false initial).2.

(** Three matches whose texts are "http://a", "http://a", "http://b". *)
Definition three_matches : list Region.t :=
  [Region.mk 0 3; Region.mk 4 7; Region.mk 10 15].

Definition three_stored : State :=
  mkState {[ 7%nat := three_matches ]} ∅ [] 1 [].

(** A zero-width match stored ahead of one that spans it. *)
Definition zero_width_first : State :=
  mkState {[ 7%nat := [Region.mk 3 3; Region.mk 0 5] ]} ∅ [] 1 [].

(** Views 1, 2 and 3 ignored, in that order. *)
Definition three_ignored : State := mkState ∅ ∅ [1; 2; 3]%nat 1 [].

(** ** Sessions: calls the host makes one after the other *)

(** A call of an event handler or of a command.  The host record travels
    with the call, since settings may change between two calls. *)
Inductive Call :=
| CallOnActivated (host : Host) (view : View.t)
| CallOnLoad (host : Host) (view : View.t)
| CallOnModified (host : Host) (view : View.t)
| CallOnLoadAsync (host : Host) (view : View.t)
| CallOnModifiedAsync (host : Host) (view : View.t)
| CallOnClose (view : View.t)
| CallFindUrls (host : Host) (view : View.t)
| CallOpenUrlUnderCursor (host : Host) (view : View.t)
| CallOpenAllUrls (host : Host) (view : View.t).

Definition handler (c : Call) : M unit :=
  match c with
  | CallOnActivated host view => UrlHighlighter.on_activated host view
  | CallOnLoad host view => UrlHighlighter.on_load host view
  | CallOnModified host view => UrlHighlighter.on_modified host view
  | CallOnLoadAsync host view => UrlHighlighter.on_load_async host view
  | CallOnModifiedAsync host view =>
      UrlHighlighter.on_modified_async host view
  | CallOnClose view => UrlHighlighter.on_close view
  | CallFindUrls host view => FindUrlsCommand.run host view
  | CallOpenUrlUnderCursor host view =>
      OpenUrlUnderCursorCommand.run host view
  | CallOpenAllUrls host view => OpenAllUrlsCommand.run host view
  end.

(** The state a call leaves behind, however it ends: an exception ends the
    handler, not the plugin. *)
Definition after (c : Call) (s : State) : State := (handler c s).2.

(** The state after a series of calls from the state at import time. *)
Definition session (calls : list Call) : State :=
  foldl (λ s c, after c s) initial calls.

(** The state after a series of calls from a given state. *)
Definition after_calls (calls : list Call) (s : State) : State :=
  foldl (λ s c, after c s) s calls.

Definition is_close (c : Call) : bool :=
  match c with
  | CallOnClose _ => true
  | _ => false
  end.

(** The marker groups on screen after a series of host calls:
    [add_regions] sets the group of a key, [erase_regions] removes it. *)
Definition draw (groups : gset (nat * string)) (e : Event)
    : gset (nat * string) :=
  match e with
  | AddRegions view key _ _ _ => {[ (view, key) ]} ∪ groups
  | EraseRegions view key => groups ∖ {[ (view, key) ]}
  | _ => groups
  end.

Definition drawn (evs : list Event) : gset (nat * string) :=
  foldl draw ∅ evs.

(** A host call is either the log line or addressed to the given view. *)
Definition concerns (id : nat) (e : Event) : Prop :=
  match e with
  | AddRegions v _ _ _ _ | EraseRegions v _ | OpenFile v _ => v = id
  | Print _ => True
  | BrowserOpen _ _ | ErrorMessage _ => False
  end.

(** The host with the [auto_find_urls] setting replaced. *)
Definition with_auto_find_urls (b : bool) (host : Host) : Host :=
  let st := load_settings host in
  mkHost (version host)
    (Settings.mk b (Settings.highlight_urls st) (Settings.max_url_limit st)
       (Settings.file_folder_regex st) (Settings.clickable_urls_browser st))
    (isfile host) (browser_open host).

(** The way a call of [update_url_highlights] goes from a state, in the
    terms of the thread programs. *)
Definition way_of (host : Host) (view : View.t) (force : bool) (s : State)
    : Threads.Way :=
  let settings := load_settings host in
  if negb force && negb (Settings.auto_find_urls settings)
  then Threads.Gated
  else if decide (View.id view ∈ ignored_views s)
  then Threads.AlreadyIgnored
  else if Z.of_nat (length (scan host view))
            >? Settings.max_url_limit settings
  then Threads.TooMany
  else if Settings.highlight_urls settings
  then Threads.Highlighted
  else Threads.Stored.

(** All threads have run to their end. *)
Definition finished (sys : Threads.Sys) : Prop :=
  Forall (λ t, Threads.code t = []) (Threads.threads sys).

(** Steps still to run, over all threads. *)
Definition remaining (sys : Threads.Sys) : nat :=
  sum_list_with (λ t, length (Threads.code t)) (Threads.threads sys).

(** What every session keeps: the semaphore is free between calls, no view
    is listed twice as ignored, a view with stored scopes has stored
    matches, and stored scopes are distinct. *)
Definition well_formed (s : State) : Prop :=
  highlight_semaphore s = 1%nat ∧
  NoDup (ignored_views s) ∧
  (∀ id, is_Some (scopes_for_view s !! id) →
         is_Some (urls_for_view s !! id)) ∧
  (∀ id scopes, scopes_for_view s !! id = Some scopes → NoDup scopes).

(** The marker groups on screen are those of the stored scopes: a group is
    drawn under a key exactly when the key is that of a scope stored for
    the view. *)
Definition markers_match (s : State) : Prop :=
  ∀ id key,
    (id, key) ∈ drawn (trace s) ↔
    ∃ scope, scope ∈ default [] (scopes_for_view s !! id) ∧
             key = UrlHighlighter.region_key scope.

(** The regions handed to [add_regions] over a series of host calls. *)
Definition added_regions (evs : list Event) : list Region.t :=
  e ← evs;
  match e with
  | AddRegions _ _ regions _ _ => regions
  | _ => []
  end.

(** ** Basic facts about the monad *)

Lemma with_trace_nil s : with_trace s [] = s.
Proof. destruct s; unfold with_trace; simpl. by rewrite app_nil_r. Qed.

Lemma with_trace_app s evs1 evs2 :
  with_trace (with_trace s evs1) evs2 = with_trace s (evs1 ++ evs2).
Proof. unfold with_trace; simpl. by rewrite app_assoc. Qed.

Ltac unfold_m :=
  unfold mbind, M_bind, bind, mret, M_ret, ret, raise, lift, get, emit,
    set_urls_for_view, set_scopes_for_view, set_ignored_views,
    try_except, try_finally, acquire, release in *.

Lemma emit_with_trace e s : emit e s = (Ok tt, with_trace s [e]).
Proof. reflexivity. Qed.

Lemma for_each_emit {A} (f : A → Event) (l : list A) s :
  for_each l (λ x, emit (f x)) s = (Ok tt, with_trace s (f <$> l)).
Proof.
  revert s; induction l as [|x l IH]; intros s; simpl.
  - by rewrite with_trace_nil.
  - unfold_m. fold (with_trace s [f x]). rewrite IH.
    by rewrite with_trace_app.
Qed.

(** ** [open_url] *)

(** C7 (as the code has it): [open_url] asks the host to open an existing
    local file as a document and makes no browser call then; any other
    string goes to the browser launcher.  When the launcher raises
    [webbrowser.Error] the modal error message is shown and nothing is
    raised; when it returns, started or not, nothing more is done. *)
Theorem open_url_dispatch host url view s :
  open_url host url view s =
    (Ok tt,
     with_trace s
       (if isfile host url then [OpenFile (View.id view) url]
        else
          let browser :=
            Settings.clickable_urls_browser (load_settings host) in
          match browser_open host browser url with
          | Returned _ => [BrowserOpen browser url]
          | RaisedError =>
              [BrowserOpen browser url; ErrorMessage browser_error_message]
          end)).
Proof.
  unfold open_url. destruct (isfile host url); [done|].
  unfold webbrowser_open; unfold_m.
  destruct (browser_open host _ url); simpl; [done|].
  unfold with_trace; simpl. by rewrite <- app_assoc.
Qed.

(** C7, as the claim words it, fails: when the launcher returns [False],
    having failed to start the browser, the string was handed to it and no
    message is shown. *)
Lemma open_url_as_specified_fails :
  ¬ open_url_as_specified host_browser_fails "http://a" (view_7 [] [])
      initial.
Proof.
  intros (_ & evs & Hrun & _ & Hshown); [done|].
  assert (Hevs : evs = [BrowserOpen None "http://a"])
    by (vm_compute in Hrun; by injection Hrun as <-).
  subst evs. specialize (Hshown ltac:(done)).
  apply list_elem_of_singleton in Hshown. discriminate.
Qed.

(** ** Commands on a view without stored matches *)

(** C10: on a view that has no entry in [urls_for_view], both the
    open-under-cursor and the open-all command return without opening
    anything, raising anything or changing any state. *)
Theorem commands_noop_without_entry host view s
    (Hnone : urls_for_view s !! View.id view = None) :
  OpenUrlUnderCursorCommand.run host view s = (Ok tt, s) ∧
  OpenAllUrlsCommand.run host view s = (Ok tt, s).
Proof.
  unfold OpenUrlUnderCursorCommand.run, OpenAllUrlsCommand.run; unfold_m.
  by rewrite Hnone.
Qed.

Lemma commands_noop_without_entry_witness :
  OpenUrlUnderCursorCommand.run default_host
    (view_7 two_matches [Region.mk 12 12]) initial = (Ok tt, initial) ∧
  OpenAllUrlsCommand.run default_host
    (view_7 two_matches [Region.mk 12 12]) initial = (Ok tt, initial).
Proof.
  apply (commands_noop_without_entry default_host
           (view_7 two_matches [Region.mk 12 12]) initial).
  reflexivity.
Defined.

(** ** The highlight differencer: [update_view_scopes] *)

Lemma update_view_scopes_run view new_scopes s :
  UrlHighlighter.update_view_scopes view new_scopes s =
    (Ok tt,
     mkState (urls_for_view s)
       (<[View.id view := new_scopes]> (scopes_for_view s))
       (ignored_views s) (highlight_semaphore s)
       (trace s ++
        erasures view
          (elements (Py.set_of (stored_scopes s view) ∖ Py.set_of new_scopes)))).
Proof.
  unfold UrlHighlighter.update_view_scopes, stored_scopes.
  assert (Hempty : elements (Py.set_of (@nil string) ∖ Py.set_of new_scopes) = []).
  { unfold Py.set_of; simpl. rewrite empty_difference_L.
    apply elements_empty. }
  unfold_m; simpl.
  destruct (scopes_for_view s !! View.id view) as [[|x old]|] eqn:Hold; simpl.
  - rewrite Hempty; simpl. by rewrite app_nil_r.
  - rewrite (for_each_emit
               (λ sc, EraseRegions (View.id view) (UrlHighlighter.region_key sc))).
    simpl. reflexivity.
  - rewrite Hempty; simpl. by rewrite app_nil_r.
Qed.

Lemma unused_scopes_spec (old new : list string) :
  NoDup (elements (Py.set_of old ∖ Py.set_of new)) ∧
  ∀ scope, scope ∈ elements (Py.set_of old ∖ Py.set_of new) ↔
           scope ∈ old ∧ scope ∉ new.
Proof.
  split; [apply NoDup_elements|].
  intros scope. rewrite elem_of_elements. unfold Py.set_of. set_solver.
Qed.

(** C4: [update_view_scopes] erases exactly the marker groups of the scopes
    that were stored and are not among the new ones, each once, and then
    stores the new scopes, whatever they are (also when there are none). *)
Theorem update_view_scopes_diff view new_scopes s :
  ∃ unused s',
    UrlHighlighter.update_view_scopes view new_scopes s = (Ok tt, s') ∧
    trace s' = trace s ++ erasures view unused ∧
    NoDup unused ∧
    (∀ scope, scope ∈ unused ↔
              scope ∈ stored_scopes s view ∧ scope ∉ new_scopes) ∧
    scopes_for_view s' !! View.id view = Some new_scopes ∧
    stored_scopes s' view = new_scopes.
Proof.
  eexists _, _. split; [apply update_view_scopes_run|]. simpl.
  destruct (unused_scopes_spec (stored_scopes s view) new_scopes) as [Hnd Hin].
  repeat split; try done.
  - by apply Hin.
  - by apply Hin.
  - by apply Hin.
  - by rewrite lookup_insert_eq.
  - unfold stored_scopes; simpl. by rewrite lookup_insert_eq.
Qed.

Example update_view_scopes_a_b_c :
  let view := View.mk 1 (λ _, []) (λ _, "") (λ _, "") [] in
  let s := mkState ∅ {[ 1%nat := ["a"; "b"] ]} [] 1 [] in
  let s' := (UrlHighlighter.update_view_scopes view ["b"; "c"] s).2 in
  trace s' = [EraseRegions 1 "clickable-urls a"] ∧
  stored_scopes s' view = ["b"; "c"].
Proof. by vm_compute. Qed.

(** ** Grouping by scope label: [scope_map] *)

Lemma keys_setdefault_append {V} k (v : V) d :
  Py.keys (Py.setdefault_append k v d) =
  Py.keys d ++ (if decide (k ∈ Py.keys d) then [] else [k]).
Proof.
  unfold Py.keys. induction d as [|[k' vs] d IH].
  - done.
  - cbn [Py.setdefault_append]. rewrite fmap_cons. cbn [fst].
    destruct (decide (k' = k)) as [->|Hne].
    + rewrite fmap_cons. cbn [fst].
      rewrite decide_True by apply list_elem_of_here. by rewrite app_nil_r.
    + rewrite fmap_cons, IH. cbn [fst]. rewrite <- app_comm_cons. do 2 f_equal.
      destruct (decide (k ∈ d.*1)) as [Hin|Hnin].
      * rewrite decide_True; [done|by apply list_elem_of_further].
      * rewrite decide_False; [done|].
        intros [?|?]%elem_of_cons; congruence.
Qed.

Lemma elem_of_setdefault_append {V} k0 (v : V) d k vs :
  NoDup (Py.keys d) →
  (k, vs) ∈ Py.setdefault_append k0 v d →
  (k ≠ k0 ∧ (k, vs) ∈ d) ∨
  (k = k0 ∧ ((∃ vs0, (k0, vs0) ∈ d ∧ vs = vs0 ++ [v]) ∨
             ((k0 ∉ Py.keys d) ∧ vs = [v]))).
Proof.
  unfold Py.keys. induction d as [|[k' vs'] d IH]; simpl; intros Hnd Hin.
  - apply list_elem_of_singleton in Hin. injection Hin as -> ->.
    right. split; [done|]. right. split; [apply not_elem_of_nil|done].
  - apply NoDup_cons in Hnd as [Hk' Hnd].
    destruct (decide (k' = k0)) as [->|Hne].
    + apply elem_of_cons in Hin as [Heq|Hin].
      * injection Heq as -> ->. right. split; [done|]. left.
        exists vs'. split; [apply list_elem_of_here|done].
      * left. split; [|by apply list_elem_of_further].
        intros ->. apply Hk'.
        apply list_elem_of_fmap. by exists (k0, vs).
    + apply elem_of_cons in Hin as [Heq|Hin].
      * injection Heq as -> ->. left. split; [done|apply list_elem_of_here].
      * destruct (IH Hnd Hin) as [[? ?]|[-> [(vs0 & ? & ->)|[Hnin ->]]]].
        -- left. split; [done|by apply list_elem_of_further].
        -- right. split; [done|]. left. exists vs0.
           split; [by apply list_elem_of_further|done].
        -- right. split; [done|]. right. split; [|done].
           intros [?|?]%elem_of_cons; [congruence|by apply Hnin].
Qed.

Lemma scope_map_of_snoc view urls url :
  UrlHighlighter.scope_map_of view (urls ++ [url]) =
  Py.setdefault_append (label view url) url
    (UrlHighlighter.scope_map_of view urls).
Proof. unfold UrlHighlighter.scope_map_of. by rewrite foldl_snoc. Qed.

Lemma group_of_snoc view urls url scope :
  group_of view (urls ++ [url]) scope =
  group_of view urls scope ++
  (if decide (label view url = scope) then [url] else []).
Proof.
  unfold group_of. rewrite filter_app. f_equal.
Qed.

(** The dict built by the first loop: its keys are distinct, they are the
    labels of the matches, and each key is paired with the matches of that
    label in their order. *)
Lemma scope_map_of_spec view urls :
  let d := UrlHighlighter.scope_map_of view urls in
  NoDup (Py.keys d) ∧
  (∀ k, k ∈ Py.keys d ↔ ∃ url, url ∈ urls ∧ label view url = k) ∧
  (∀ k vs, (k, vs) ∈ d → vs = group_of view urls k).
Proof.
  induction urls as [|url urls IH] using rev_ind; simpl.
  - split; [constructor|]. split.
    + intros k. split; [by intros ?%elem_of_nil|].
      by intros (? & ?%elem_of_nil & _).
    + by intros k vs ?%elem_of_nil.
  - destruct IH as (Hnd & Hkeys & Hgroups).
    rewrite scope_map_of_snoc, keys_setdefault_append.
    set (d := UrlHighlighter.scope_map_of view urls) in *.
    split; [|split].
    + destruct (decide (label view url ∈ Py.keys d)).
      * by rewrite app_nil_r.
      * apply NoDup_app. split; [done|]. split; [|apply NoDup_singleton].
        intros x Hx ->%list_elem_of_singleton. done.
    + intros k. rewrite elem_of_app, Hkeys. split.
      * intros [(u & Hu & <-)|Hk].
        -- exists u. split; [|done]. apply elem_of_app. by left.
        -- destruct (decide _); [by apply elem_of_nil in Hk|].
           apply list_elem_of_singleton in Hk as ->.
           exists url. split; [|done]. apply elem_of_app. right.
           apply list_elem_of_here.
      * intros (u & [Hu|Hu]%elem_of_app & <-).
        -- left. by exists u.
        -- apply list_elem_of_singleton in Hu as ->.
           destruct (decide (label view url ∈ Py.keys d)) as [Hin|Hnin].
           ++ left. by apply Hkeys.
           ++ right. apply list_elem_of_here.
    + intros k vs Hin. rewrite group_of_snoc.
      apply elem_of_setdefault_append in Hin
        as [[Hne Hin]|[-> [(vs0 & Hin & ->)|[Hnin ->]]]]; [| | |done].
      * rewrite decide_False by done. rewrite app_nil_r. by apply Hgroups.
      * rewrite decide_True by done. f_equal. by apply Hgroups.
      * rewrite decide_True by done.
        replace (group_of view urls (label view url)) with (@nil Region.t);
          [done|].
        symmetry. unfold group_of.
        destruct (filter _ urls) as [|u us] eqn:Hf; [done|].
        exfalso. apply Hnin, Hkeys. exists u.
        assert (Hu : u ∈ filter (λ url0, label view url0 = label view url) urls)
          by (rewrite Hf; apply list_elem_of_here).
        apply list_elem_of_filter in Hu as [? ?]. done.
Qed.

(** ** [highlight_urls] *)

Lemma underline_regions_run host view scope regions s :
  UrlHighlighter.underline_regions host view scope regions s =
    (Ok tt, with_trace s [marker_group host view scope regions]).
Proof.
  unfold UrlHighlighter.underline_regions, marker_group.
  destruct (Py.str_ge _ _); [done|].
  rewrite emit_with_trace. do 4 f_equal.
Qed.

Lemma for_each_underline host view d s :
  for_each d (λ '(scope_name, regions),
    UrlHighlighter.underline_regions host view scope_name regions) s =
  (Ok tt,
   with_trace s ((λ '(k, rs), marker_group host view k rs) <$> d)).
Proof.
  revert s; induction d as [|[k rs] d IH]; intros s.
  - simpl. by rewrite with_trace_nil.
  - cbn [for_each]. unfold mbind, M_bind, bind.
    rewrite underline_regions_run, IH, with_trace_app. done.
Qed.

Lemma grouped_marker_groups host view urls (d : list (string * list Region.t)) :
  (∀ k vs, (k, vs) ∈ d → vs = group_of view urls k) →
  (λ '(k, rs), marker_group host view k rs) <$> d =
  marker_groups host view urls (Py.keys d).
Proof.
  unfold marker_groups, Py.keys.
  induction d as [|[k rs] d IH]; intros Hd; [done|].
  rewrite !fmap_cons. cbn [fst]. f_equal.
  - f_equal. apply Hd, list_elem_of_here.
  - apply IH. intros k' vs Hin. by apply Hd, list_elem_of_further.
Qed.

Lemma highlight_urls_run host view urls s :
  let scopes := Py.keys (UrlHighlighter.scope_map_of view urls) in
  UrlHighlighter.highlight_urls host view urls s =
    (Ok tt,
     mkState (urls_for_view s)
       (<[View.id view := scopes]> (scopes_for_view s))
       (ignored_views s) (highlight_semaphore s)
       (trace s ++
        marker_groups host view urls scopes ++
        erasures view
          (elements (Py.set_of (stored_scopes s view) ∖ Py.set_of scopes)))).
Proof.
  intros scopes. unfold UrlHighlighter.highlight_urls.
  unfold mbind, M_bind, bind.
  rewrite for_each_underline, update_view_scopes_run.
  rewrite (grouped_marker_groups host view urls)
    by apply scope_map_of_spec.
  unfold with_trace, stored_scopes; simpl. by rewrite <- app_assoc.
Qed.

Lemma marker_group_kind host view scope regions :
  is_add (marker_group host view scope regions) = true ∧
  is_erase (marker_group host view scope regions) = false.
Proof. unfold marker_group. by destruct (Py.str_ge _ _). Qed.

Lemma all_before_app (first second : Event → bool) l1 l2 :
  Forall (λ e, second e = false) l1 →
  Forall (λ e, first e = false) l2 →
  all_before first second (l1 ++ l2).
Proof.
  intros H1 H2 i j e1 e2 Hi Hj Hf Hs.
  destruct (decide (i < length l1)%nat) as [Hlt|Hge].
  - destruct (decide (j < length l1)%nat) as [Hjlt|Hjge]; [|lia].
    rewrite lookup_app_l in Hj by done.
    rewrite Forall_forall in H1.
    apply list_elem_of_lookup_2, H1 in Hj. congruence.
  - rewrite lookup_app_r in Hi by lia.
    rewrite Forall_forall in H2.
    apply list_elem_of_lookup_2, H2 in Hi. congruence.
Qed.

(** C8 (as the code has it): a highlighting cycle first draws one marker
    group per scope label of the new matches, each group holding the matches
    of that label, and only afterwards erases the groups of the scopes that
    were stored and are no longer used. *)
Theorem highlight_urls_order host view urls s :
  ∃ scopes unused s',
    UrlHighlighter.highlight_urls host view urls s = (Ok tt, s') ∧
    trace s' =
      trace s ++ marker_groups host view urls scopes ++ erasures view unused ∧
    NoDup scopes ∧
    (∀ k, k ∈ scopes ↔ ∃ url, url ∈ urls ∧ label view url = k) ∧
    NoDup unused ∧
    (∀ k, k ∈ unused ↔ k ∈ stored_scopes s view ∧ k ∉ scopes) ∧
    all_before is_add is_erase
      (marker_groups host view urls scopes ++ erasures view unused).
Proof.
  destruct (scope_map_of_spec view urls) as (Hnd & Hkeys & _).
  eexists _, _, _. split; [apply highlight_urls_run|]. simpl.
  split; [done|]. split; [done|]. split; [done|].
  split; [apply unused_scopes_spec|]. split; [apply unused_scopes_spec|].
  apply all_before_app.
  - apply Forall_fmap, Forall_true. intros k. apply marker_group_kind.
  - apply Forall_fmap, Forall_true. by intros k.
Qed.

(** C8, the order as the claim words it, fails: with the scope "old" stored
    for view 7 and one new match labelled "a", the group of "a" is drawn
    before the group of "old" is erased. *)
Lemma highlight_urls_erases_last :
  let s := mkState ∅ {[ 7%nat := ["old"] ]} [] 1 [] in
  let s' :=
    (UrlHighlighter.highlight_urls default_host (view_7 [Region.mk 0 5] [])
       [Region.mk 0 5] s).2 in
  trace s' =
    [AddRegions 7 "clickable-urls a" [Region.mk 0 5] "a"
       [DRAW_NO_FILL; DRAW_NO_OUTLINE; DRAW_SOLID_UNDERLINE];
     EraseRegions 7 "clickable-urls old"] ∧
  ¬ all_before is_erase is_add (trace s').
Proof.
  intros s s'. assert (Htrace : trace s' =
    [AddRegions 7 "clickable-urls a" [Region.mk 0 5] "a"
       [DRAW_NO_FILL; DRAW_NO_OUTLINE; DRAW_SOLID_UNDERLINE];
     EraseRegions 7 "clickable-urls old"]) by (by vm_compute).
  split; [done|]. rewrite Htrace. intros Horder.
  specialize (Horder 1%nat 0%nat _ _ eq_refl eq_refl eq_refl eq_refl). lia.
Qed.

(** ** [update_url_highlights] *)

Lemma scan_gated host view s :
  Settings.auto_find_urls (load_settings host) = false →
  UrlHighlighter.update_url_highlights host view false s = (Ok tt, s).
Proof. unfold UrlHighlighter.update_url_highlights. by intros ->. Qed.

Lemma scan_ignored host view force s :
  View.id view ∈ ignored_views s →
  UrlHighlighter.update_url_highlights host view force s = (Ok tt, s).
Proof.
  intros Hin. unfold UrlHighlighter.update_url_highlights.
  destruct (negb force && negb _); [done|].
  unfold_m. by rewrite decide_True.
Qed.

Lemma scan_over_limit host view force s :
  force || Settings.auto_find_urls (load_settings host) = true →
  View.id view ∉ ignored_views s →
  Settings.max_url_limit (load_settings host)
    < Z.of_nat (length (scan host view)) →
  UrlHighlighter.update_url_highlights host view force s =
    (Ok tt,
     mkState (urls_for_view s) (scopes_for_view s)
       (ignored_views s ++ [View.id view]) (highlight_semaphore s)
       (trace s ++
        [Print ("UrlHighlighter: ignoring view with "
                +:+ Py.fmt_u (length (scan host view)) +:+ " URLs")])).
Proof.
  intros Hgate Hnot Hover. unfold UrlHighlighter.update_url_highlights.
  replace (negb force && negb _) with false
    by (destruct force, (Settings.auto_find_urls _); done).
  unfold_m. rewrite decide_False by done. fold (scan host view).
  by rewrite (proj2 (Z.gtb_lt _ _)) by done.
Qed.

Lemma scan_within_limit host view force s :
  force || Settings.auto_find_urls (load_settings host) = true →
  View.id view ∉ ignored_views s →
  Z.of_nat (length (scan host view))
    ≤ Settings.max_url_limit (load_settings host) →
  UrlHighlighter.update_url_highlights host view force s =
    if Settings.highlight_urls (load_settings host)
    then UrlHighlighter.highlight_urls host view (scan host view)
           (store_urls view (scan host view) s)
    else (Ok tt, store_urls view (scan host view) s).
Proof.
  intros Hgate Hnot Hle. unfold UrlHighlighter.update_url_highlights.
  replace (negb force && negb _) with false
    by (destruct force, (Settings.auto_find_urls _); done).
  unfold_m. rewrite decide_False by done. fold (scan host view).
  destruct (Z.gtb_spec (Z.of_nat (length (scan host view)))
              (Settings.max_url_limit (load_settings host))); [lia|].
  by destruct (Settings.highlight_urls _).
Qed.

(** A scan always returns, and neither reads nor moves the semaphore. *)
Lemma update_url_highlights_returns host view force s :
  ∃ s',
    UrlHighlighter.update_url_highlights host view force s = (Ok tt, s') ∧
    highlight_semaphore s' = highlight_semaphore s ∧
    ∀ n, UrlHighlighter.update_url_highlights host view force
           (with_semaphore n s) = (Ok tt, with_semaphore n s').
Proof.
  destruct (force || Settings.auto_find_urls (load_settings host)) eqn:Hgate.
  - destruct (decide (View.id view ∈ ignored_views s)) as [Hin|Hnot].
    + exists s. split; [by apply scan_ignored|]. split; [done|].
      intros n. by apply scan_ignored.
    + destruct (Z.gtb_spec (Z.of_nat (length (scan host view)))
                  (Settings.max_url_limit (load_settings host))).
      * eexists. split; [by apply scan_over_limit|]. split; [done|].
        intros n. by rewrite scan_over_limit.
      * rewrite scan_within_limit by done.
        destruct (Settings.highlight_urls (load_settings host)) eqn:Hhl.
        -- eexists. split; [apply highlight_urls_run|]. split; [reflexivity|].
           intros n. rewrite scan_within_limit, Hhl by done.
           rewrite highlight_urls_run. reflexivity.
        -- eexists. split; [done|]. split; [reflexivity|].
           intros n. by rewrite scan_within_limit, Hhl by done.
  - apply orb_false_iff in Hgate as [-> Hauto].
    exists s. split; [by apply scan_gated|]. split; [done|].
    intros n. by apply scan_gated.
Qed.

(** Under [update_url_highlights_async] the scan runs with the semaphore
    taken, which is given back afterwards; with the counter at zero the
    call waits. *)
Lemma update_url_highlights_async_run host view force s n :
  highlight_semaphore s = S n →
  ∃ s',
    UrlHighlighter.update_url_highlights host view force (with_semaphore n s)
      = (Ok tt, s') ∧
    highlight_semaphore s' = n ∧
    UrlHighlighter.update_url_highlights_async host view force s
      = (Ok tt, with_semaphore (S n) s').
Proof.
  intros Hsem.
  destruct (update_url_highlights_returns host view force
              (with_semaphore n s)) as (s' & Hrun & Hkeep & _).
  exists s'. split; [done|]. split; [done|].
  unfold UrlHighlighter.update_url_highlights_async.
  unfold mbind, M_bind, bind, acquire, try_finally. rewrite Hsem.
  fold (with_semaphore n s). rewrite Hrun.
  unfold mbind, M_bind, bind, release, mret, M_ret, ret, with_semaphore.
  simpl in *. by rewrite Hkeep.
Qed.

Lemma update_url_highlights_async_waits host view force s :
  highlight_semaphore s = 0%nat →
  UrlHighlighter.update_url_highlights_async host view force s = (Block, s).
Proof.
  intros Hsem. unfold UrlHighlighter.update_url_highlights_async.
  unfold mbind, M_bind, bind, acquire. by rewrite Hsem.
Qed.

(** C5: after a scan that highlights (not gated off, view not ignored, count
    within the ceiling, [highlight_urls] on), the scopes stored for the view
    are exactly the distinct scope labels found at the start offsets of the
    matches stored for it. *)
Theorem scopes_are_labels_of_matches host view force s
    (Hgate : force || Settings.auto_find_urls (load_settings host) = true)
    (Hnot : View.id view ∉ ignored_views s)
    (Hcount : Z.of_nat (length (scan host view))
              ≤ Settings.max_url_limit (load_settings host))
    (Hhl : Settings.highlight_urls (load_settings host) = true) :
  ∃ s',
    UrlHighlighter.update_url_highlights host view force s = (Ok tt, s') ∧
    is_Some (urls_for_view s' !! View.id view) ∧
    is_Some (scopes_for_view s' !! View.id view) ∧
    NoDup (stored_scopes s' view) ∧
    ∀ k, k ∈ stored_scopes s' view ↔
         ∃ url, url ∈ stored_matches s' view ∧ label view url = k.
Proof.
  rewrite scan_within_limit, Hhl, highlight_urls_run by done.
  eexists. split; [done|].
  unfold stored_scopes, stored_matches; simpl.
  rewrite !lookup_insert_eq; simpl.
  destruct (scope_map_of_spec view (scan host view)) as (Hnd & Hkeys & _).
  eauto.
Qed.

Lemma scopes_are_labels_of_matches_witness :
  ∃ s',
    UrlHighlighter.update_url_highlights default_host
      (view_7 two_matches []) false initial = (Ok tt, s') ∧
    is_Some (urls_for_view s' !! 7%nat) ∧
    is_Some (scopes_for_view s' !! 7%nat) ∧
    NoDup (stored_scopes s' (view_7 two_matches [])) ∧
    ∀ k, k ∈ stored_scopes s' (view_7 two_matches []) ↔
         ∃ url, url ∈ stored_matches s' (view_7 two_matches []) ∧
                label (view_7 two_matches []) url = k.
Proof.
  apply (scopes_are_labels_of_matches default_host (view_7 two_matches [])
           false initial).
  - reflexivity.
  - apply not_elem_of_nil.
  - vm_compute. discriminate.
  - reflexivity.
Defined.

Example scan_two_matches :
  let s' := (UrlHighlighter.update_url_highlights default_host
               (view_7 two_matches []) false initial).2 in
  stored_matches s' (view_7 two_matches []) = two_matches ∧
  stored_scopes s' (view_7 two_matches []) = ["a"; "b"].
Proof. by vm_compute. Qed.

(** A rescan that finds nothing still replaces the stored scopes, by the
    empty list, and erases every group that was drawn. *)
Example rescan_without_matches :
  let s := mkState ∅ {[ 7%nat := ["a"; "b"] ]} [] 1 [] in
  let s' := (UrlHighlighter.update_url_highlights default_host
               (view_7 [] []) false s).2 in
  scopes_for_view s' !! 7%nat = Some [] ∧
  trace s' ≡ₚ [EraseRegions 7 "clickable-urls a";
               EraseRegions 7 "clickable-urls b"].
Proof. by vm_compute. Qed.

(** C1, as the claim words it, fails twice.  With [highlight_urls] off, two
    matches under a ceiling of 200 are stored but not highlighted; and a
    view that had one match stored keeps it when a later scan finds two
    matches under a ceiling of one and the view becomes ignored. *)
Lemma ceiling_as_specified_fails :
  ¬ ceiling_as_specified host_no_highlight (view_7 two_matches []) false
      initial ∧
  ¬ ceiling_as_specified host_limit_1 (view_7 two_matches []) false
      one_scanned.
Proof.
  split.
  - intros [Hwithin _].
    destruct Hwithin as (_ & evs & Htrace & Hhl); [by vm_compute|].
    assert (Hevs : evs = []) by (vm_compute in Htrace; by subst evs).
    specialize (Hhl (Region.mk 0 5)). rewrite Hevs in Hhl.
    eapply elem_of_nil, Hhl, list_elem_of_here.
  - intros [_ Hover].
    destruct Hover as [_ Hnone]; [by vm_compute|].
    vm_compute in Hnone. discriminate.
Qed.

(** ** Open URL under cursor *)

Lemma contains_point_closed m pt :
  Region.contains_point m pt = true ↔ in_closed_range m pt.
Proof.
  unfold Region.contains_point, in_closed_range.
  rewrite andb_true_iff, !Z.leb_le. done.
Qed.

Lemma contains_cursor m selection :
  Region.empty selection = true →
  Region.contains m selection = true ↔ in_closed_range m (Region.a selection).
Proof.
  unfold Region.empty, Region.contains. intros <-%Z.eqb_eq.
  rewrite andb_diag. apply contains_point_closed.
Qed.

(** [next(...)] over the stored matches picks the first one, in their order,
    whose closed range holds the cursor. *)
Lemma first_containing_spec urls selection :
  Region.empty selection = true →
  first_match in_closed_range urls (Region.a selection)
    (OpenUrlUnderCursorCommand.first_containing urls selection).
Proof.
  intros Hempty. unfold OpenUrlUnderCursorCommand.first_containing.
  induction urls as [|url urls IH]; simpl.
  - by intros m' ?%elem_of_nil.
  - destruct (Region.contains url selection) eqn:Hc.
    + exists 0%nat. split; [done|]. split; [by apply contains_cursor|].
      intros j m' Hj. lia.
    + assert (Hout : ¬ in_closed_range url (Region.a selection)).
      { rewrite <- contains_cursor by done. by rewrite Hc. }
      destruct (find _ urls) as [m|].
      * destruct IH as (i & Hi & Hin & Hfirst).
        exists (S i). split; [done|]. split; [done|].
        intros [|j] m' Hj Hm'; simpl in Hm'.
        -- by injection Hm' as <-.
        -- apply (Hfirst j); [lia|done].
      * intros m' [->|Hm']%elem_of_cons; [done|by apply IH].
Qed.

(** C2 (as the code has it): with matches stored for the view, a zero-width
    selection resolves to the first stored match, in insertion order, whose
    closed range from begin to end holds the cursor offset; its text is
    opened unless that match is itself zero-width, and nothing is opened
    when no match holds the offset.  A selection that is not zero-width is
    itself the target. *)
Theorem open_under_cursor host view s urls selection others
    (Hstored : urls_for_view s !! View.id view = Some urls)
    (Hsel : View.sel view = selection :: others) :
  if Region.empty selection then
    ∃ m, first_match in_closed_range urls (Region.a selection) m ∧
      OpenUrlUnderCursorCommand.run host view s =
        match m with
        | Some m =>
            if Region.size m =? 0 then (Ok tt, s)
            else open_url host (View.substr view m) view s
        | None => (Ok tt, s)
        end
  else
    OpenUrlUnderCursorCommand.run host view s =
      open_url host (View.substr view selection) view s.
Proof.
  unfold OpenUrlUnderCursorCommand.run; unfold_m.
  rewrite Hstored, Hsel; simpl.
  destruct (Region.empty selection) eqn:Hempty; [|done].
  exists (OpenUrlUnderCursorCommand.first_containing urls selection).
  split; [by apply first_containing_spec|].
  destruct (OpenUrlUnderCursorCommand.first_containing urls selection)
    as [m|]; [|done].
  unfold Region.truth. by destruct (Region.size m =? 0).
Qed.

Lemma open_under_cursor_witness :
  ∃ m, first_match in_closed_range two_matches 12 m ∧
    OpenUrlUnderCursorCommand.run default_host
      (view_7 two_matches [Region.mk 12 12]) two_stored =
      match m with
      | Some m =>
          if Region.size m =? 0 then (Ok tt, two_stored)
          else open_url default_host
                 (View.substr (view_7 two_matches [Region.mk 12 12]) m)
                 (view_7 two_matches [Region.mk 12 12]) two_stored
      | None => (Ok tt, two_stored)
      end.
Proof.
  apply (open_under_cursor default_host
           (view_7 two_matches [Region.mk 12 12]) two_stored two_matches
           (Region.mk 12 12) []).
  - reflexivity.
  - reflexivity.
Defined.

(** The specification's two cases: offset 12 opens the second match, offset 6
    opens nothing. *)
Example open_under_cursor_12_and_6 :
  OpenUrlUnderCursorCommand.run default_host
    (view_7 two_matches [Region.mk 12 12]) two_stored =
    (Ok tt, with_trace two_stored [BrowserOpen None "http://b"]) ∧
  OpenUrlUnderCursorCommand.run default_host
    (view_7 two_matches [Region.mk 6 6]) two_stored = (Ok tt, two_stored).
Proof. by vm_compute. Qed.

(** C2, as the claim words it, fails twice.  Offset 5 lies in the half-open
    range of neither stored match, yet the first one is opened; and with a
    zero-width match stored ahead of the match from 0 to 5, a cursor at 3
    opens nothing although the latter holds it. *)
Lemma under_cursor_as_specified_fails :
  ¬ under_cursor_as_specified default_host
      (view_7 two_matches [Region.mk 5 5]) two_stored 5 ∧
  ¬ under_cursor_as_specified default_host
      (view_7 [] [Region.mk 3 3]) zero_width_first 3.
Proof.
  split.
  - intros ([m|] & Hfirst & Hrun).
    + destruct Hfirst as (i & Hi & Hin & _).
      destruct i as [|[|i]]; vm_compute in Hi; [| |done];
        injection Hi as <-; vm_compute in Hin; destruct Hin as [H1 H2];
        (discriminate H2 || by apply H1).
    + vm_compute in Hrun. discriminate.
  - intros ([m|] & Hfirst & Hrun).
    + destruct Hfirst as (i & Hi & Hin & _).
      destruct i as [|[|i]]; vm_compute in Hi; [| |done];
        injection Hi as <-.
      * vm_compute in Hin. destruct Hin as [_ H2]. discriminate H2.
      * vm_compute in Hrun. discriminate.
    + apply (Hfirst (Region.mk 0 5)).
      * apply list_elem_of_further, list_elem_of_here.
      * by vm_compute.
Qed.

(** ** Closing a view *)

(** Whatever else happens, [on_close] leaves no entry for the view in the
    two dicts. *)
Lemma on_close_clears_dicts view s :
  let s' := (UrlHighlighter.on_close view s).2 in
  urls_for_view s' !! View.id view = None ∧
  scopes_for_view s' !! View.id view = None.
Proof.
  unfold UrlHighlighter.on_close; unfold_m; simpl.
  repeat (case_decide; simpl);
    try (destruct (Py.list_del _ _); simpl);
    rewrite ?lookup_delete_eq; split; try done; by apply not_elem_of_dom.
Qed.

(** A view that is not ignored closes cleanly. *)
Lemma on_close_not_ignored view s :
  View.id view ∉ ignored_views s →
  UrlHighlighter.on_close view s =
    (Ok tt,
     mkState (delete (View.id view) (urls_for_view s))
       (delete (View.id view) (scopes_for_view s))
       (ignored_views s) (highlight_semaphore s) (trace s)).
Proof.
  intros Hnot. unfold UrlHighlighter.on_close; unfold_m; simpl.
  repeat (case_decide; simpl); try done;
    rewrite ?(delete_id (urls_for_view s)) by (by apply not_elem_of_dom);
    rewrite ?(delete_id (scopes_for_view s)) by (by apply not_elem_of_dom);
    by destruct s.
Qed.

(** C3 does not hold of the code: [del map[view.id()]] on the list
    [ignored_views] deletes by position.  View 7, ignored after a scan over
    the ceiling, is the only element of the list: closing it raises
    [IndexError] and leaves it ignored, so the next scan, even forced and
    under the default ceiling, is skipped where a first scan stores the
    matches.  With views 1, 2 and 3 ignored, closing view 1 removes view 2
    from the list and keeps view 1 in it. *)
Theorem on_close_leaves_view_ignored :
  ignored_views over_limit = [7%nat] ∧
  UrlHighlighter.on_close (view_7 two_matches []) over_limit
    = (Raise Py.IndexError, over_limit) ∧
  UrlHighlighter.update_url_highlights default_host (view_7 two_matches [])
    true over_limit = (Ok tt, over_limit) ∧
  stored_matches
    (UrlHighlighter.update_url_highlights default_host
       (view_7 two_matches []) true initial).2 (view_7 two_matches [])
    = two_matches ∧
  ignored_views
    (UrlHighlighter.on_close (View.mk 1 (λ _, []) (λ _, "") (λ _, "") [])
       three_ignored).2 = [1; 3]%nat.
Proof. by vm_compute. Qed.

(** ** Open all URLs *)

Lemma for_each_unbound {A} (l : list A) (k : A → View.t → M unit) s :
  l ≠ [] →
  for_each l (λ x, view ← unbound_name "view"; k x view) s
    = (Raise (Py.NameError "view"), s).
Proof. by destruct l. Qed.

(** With at least one match stored, the loop of [OpenAllUrlsCommand.run]
    stops at its first round on the unbound name, before any call of
    [open_url]. *)
Lemma open_all_raises host view s urls :
  urls_for_view s !! View.id view = Some urls →
  urls ≠ [] →
  OpenAllUrlsCommand.run host view s = (Raise (Py.NameError "view"), s).
Proof.
  intros Hstored Hne. unfold OpenAllUrlsCommand.run.
  unfold mbind at 1, M_bind, bind, get. rewrite Hstored.
  apply (for_each_unbound _ (open_url host)).
  destruct urls as [|url urls]; [done|].
  intros Hnil. apply elements_empty_inv in Hnil.
  unfold OpenAllUrlsCommand.url_set, Py.set_of in Hnil.
  rewrite fmap_cons in Hnil. set_solver.
Qed.

(** C6 does not hold of the code.  For stored matches whose texts are
    "http://a", "http://a" and "http://b" the set walked is the two distinct
    strings, but the command raises [NameError] on the name [view] and opens
    nothing. *)
Theorem open_all_opens_nothing :
  OpenAllUrlsCommand.url_set (view_7 three_matches []) three_matches
    = {[ "http://a"; "http://b" ]} ∧
  OpenAllUrlsCommand.run default_host (view_7 three_matches []) three_stored
    = (Raise (Py.NameError "view"), three_stored).
Proof.
  split.
  - by vm_compute.
  - by apply (open_all_raises _ _ _ three_matches).
Qed.

(** ** The semaphore and the entry points *)

Section Locking.

Import Threads.
Local Open Scope nat_scope.

Lemma on_track_step sem t sem' t' :
  on_track t → exec sem t = Some (sem', t') →
  on_track t' ∧ sem' + holds t' = sem + holds t.
Proof.
  intros (w & k & Hk & ->) Hexec.
  assert (Hnext : t' = at_step w (S k) ∧ sem' + holds t' = sem + holds (at_step w k) ∧ k < 6).
  { destruct w; do 7 (destruct k as [|k]; [
      vm_compute in Hexec; try discriminate;
      try (destruct sem; [discriminate|]);
      injection Hexec as <- <-; repeat split; try reflexivity;
      cbn; lia |]); lia. }
  destruct Hnext as (-> & Hbal & Hlt). split; [|done].
  exists w, (S k). split; [lia|done].
Qed.

Lemma on_track_safe t :
  on_track t →
  (scanning t = true → holds t = 1) ∧ holds t ≤ 1 ∧ writes_unlocked t = false.
Proof.
  intros (w & k & Hk & ->).
  destruct w;
    do 7 (destruct k as [|k]; [vm_compute; repeat split; (done || lia)|]);
    lia.
Qed.

Lemma sum_holds_insert (l : list Thread) i t t' :
  l !! i = Some t →
  sum_list_with holds (<[i := t']> l) + holds t
  = sum_list_with holds l + holds t'.
Proof.
  revert i; induction l as [|x l IH]; intros [|i] Hi; try done; simpl in *.
  - injection Hi as ->. lia.
  - specialize (IH i Hi). lia.
Qed.

Lemma lock_free_step sem t sem' t' :
  lock_free t → exec sem t = Some (sem', t') →
  lock_free t' ∧ sem' + holds t' = sem + holds t.
Proof.
  intros [Hholds Hcode]. unfold exec.
  destruct (code t) as [|instr rest] eqn:Ht; [done|].
  apply Forall_cons in Hcode as [[Hacq Hrel] Hrest].
  destruct instr; try done; intros [= <- <-]; by rewrite Hholds.
Qed.

Lemma thread_ok_step r sem t sem' t' :
  thread_ok r t → exec sem t = Some (sem', t') →
  thread_ok r t' ∧ sem' + holds t' = sem + holds t.
Proof.
  unfold thread_ok. destruct (takes_lock r.1).
  - apply on_track_step.
  - apply lock_free_step.
Qed.

Lemma thread_ok_start version r :
  thread_ok r (mkThread (program version r.1 r.2) 0 false).
Proof.
  destruct r as [e w]. unfold thread_ok. simpl.
  destruct e; simpl;
    try (exists w, 0; split; [lia|done]);
    (split; [done|]);
    try destruct (Py.str_lt version "3000");
    try destruct w; by repeat constructor.
Qed.

Lemma async_scanning_le_holds runs (l : list Thread) :
  Forall2 thread_ok runs l →
  length (filter (λ rt, takes_lock rt.1.1 = true ∧ scanning rt.2 = true)
            (zip runs l))
  ≤ sum_list_with holds l.
Proof.
  induction 1 as [|r t runs l Hok _ IH]; [done|].
  simpl. rewrite filter_cons. simpl.
  destruct (decide (takes_lock r.1 = true ∧ scanning t = true))
    as [[Hlock Hscan]|_]; simpl; [|lia].
  unfold thread_ok in Hok. rewrite Hlock in Hok.
  destruct (on_track_safe t Hok) as (Hheld & _ & _).
  rewrite (Hheld Hscan). lia.
Qed.

Lemma async_writes_locked runs (l : list Thread) :
  Forall2 thread_ok runs l →
  Forall (λ rt, takes_lock rt.1.1 = true → writes_unlocked rt.2 = false)
    (zip runs l).
Proof.
  induction 1 as [|r t runs l Hok _ IH]; [done|].
  simpl. constructor; [|done]. simpl. intros Hlock.
  unfold thread_ok in Hok. rewrite Hlock in Hok.
  by apply on_track_safe.
Qed.

Lemma others_hold_nothing runs (l : list Thread) :
  Forall2 thread_ok runs l →
  Forall (λ rt, takes_lock rt.1.1 = false → holds rt.2 = 0) (zip runs l).
Proof.
  induction 1 as [|r t runs l Hok _ IH]; [done|].
  simpl. constructor; [|done]. simpl. intros Hlock.
  unfold thread_ok in Hok. rewrite Hlock in Hok. by destruct Hok.
Qed.

Lemma spawn_holds_nothing progs :
  sum_list_with holds ((λ c, mkThread c 0 false) <$> progs) = 0.
Proof. induction progs as [|c progs IH]; [done|]. by rewrite fmap_cons. Qed.

(** What every interleaving keeps, for any set of entry points: each
    thread is where its entry point can be, and the semaphore counts the
    acquisitions still possible. *)
Lemma locked_invariant version runs sys :
  reachable (programs version runs) sys →
  Forall2 thread_ok runs (threads sys) ∧ balanced sys.
Proof.
  intros Hreach. unfold reachable in Hreach.
  revert sys Hreach. apply rtc_ind_r; [|intros sys sys' Hsteps Hstep IH].
  - unfold spawn, programs, balanced; simpl. split.
    + apply Forall2_fmap_r, Forall2_fmap_r, Forall_Forall2_diag.
      apply Forall_forall. intros [e w] _. apply (thread_ok_start version).
    + by rewrite spawn_holds_nothing.
  - destruct IH as [Htrack Hbal].
    destruct Hstep as [sys i t sem' t' Hi Hexec]. simpl.
    destruct (Forall2_lookup_r _ _ _ _ _ Htrack Hi) as (r & Hr & Ht).
    destruct (thread_ok_step _ _ _ _ _ Ht Hexec) as [Ht' Hsem].
    split.
    + rewrite <- (list_insert_id runs i r Hr). by apply Forall2_insert.
    + unfold balanced in *; simpl.
      pose proof (sum_holds_insert _ _ _ t' Hi). lia.
Qed.

(** C9 (as the code has it): the entry points that go through
    [update_url_highlights_async] (the two asynchronous listeners and the
    find-URLs command) keep to the semaphore, whatever other entry points
    run beside them and whichever way each call goes: at most one of them
    is inside a scan-and-store sequence at a time, and none of them writes
    a table without holding the semaphore.  The other entry points
    ([on_activated], the blocking [on_load] and [on_modified], [on_close])
    never hold it. *)
Theorem async_entry_points_serialised version runs :
  async_discipline version runs.
Proof.
  intros sys Hreach.
  destruct (locked_invariant version runs sys Hreach) as [Htrack Hbal].
  split.
  - unfold async_scans_running.
    pose proof (async_scanning_le_holds _ _ Htrack).
    unfold balanced in Hbal. lia.
  - split; [by apply async_writes_locked|by apply others_hold_nothing].
Qed.

(** C9, as the claim words it, fails for the other entry points.
    [on_activated] scans without the semaphore: started beside
    [on_modified_async] it is inside its scan while the other, holding the
    semaphore, is inside its own, and it then writes [urls_for_view] without
    the semaphore.  [on_close] writes the tables without it as well. *)
Lemma lock_discipline_fails :
  ¬ lock_discipline "3126"
      [(OnActivated, Stored); (OnModifiedAsync, Stored)] ∧
  ¬ lock_discipline "3126" [(OnClose, Stored)].
Proof.
  split.
  - intros Hlock.
    destruct (Hlock
      (mkSys 0 [mkThread [Write UrlsForView; Return] 0 true;
                mkThread [Write UrlsForView; Return; Release] 1 true]))
      as [Hscans _]; [|vm_compute in Hscans; lia].
    unfold reachable.
    eapply rtc_l; [by eapply (step_thread _ 1)|]. simpl.
    eapply rtc_l; [by eapply (step_thread _ 1)|]. simpl.
    eapply rtc_l; [by eapply (step_thread _ 0)|]. simpl.
    apply rtc_refl.
  - intros Hlock.
    destruct (Hlock (spawn (programs "3126" [(OnClose, Stored)])))
      as [_ Hwrites]; [apply rtc_refl|].
    apply Forall_cons in Hwrites as [Hw _]. vm_compute in Hw. discriminate.
Qed.

End Locking.

(** ** Further properties of a scan *)

Ltac scan_cases host view force s :=
  destruct (force || Settings.auto_find_urls (load_settings host)) eqn:?Hgate;
  [ destruct (decide (View.id view ∈ ignored_views s)) as [?Hin|?Hnot];
    [ rewrite (scan_ignored host view force s) by done
    | destruct (Z.gtb_spec (Z.of_nat (length (scan host view)))
                  (Settings.max_url_limit (load_settings host)))
        as [?Hover|?Hle];
      [ rewrite (scan_over_limit host view force s) by done
      | rewrite (scan_within_limit host view force s) by done;
        destruct (Settings.highlight_urls (load_settings host)) eqn:?Hhl;
        [ rewrite highlight_urls_run | ] ] ]
  | apply orb_false_iff in Hgate as [-> ?Hauto];
    rewrite (scan_gated host view s) by done ].

Lemma marker_groups_concern host view urls scopes :
  Forall (concerns (View.id view)) (marker_groups host view urls scopes).
Proof.
  apply Forall_fmap, Forall_true. intros scope. simpl.
  unfold marker_group. by destruct (Py.str_ge _ _).
Qed.

Lemma erasures_concern view scopes :
  Forall (concerns (View.id view)) (erasures view scopes).
Proof. apply Forall_fmap, Forall_true. by intros scope. Qed.

(** X1: a scan leaves every other view alone: their stored matches and scopes
    and their place in [ignored_views] are as before, the semaphore is not
    touched, and every host call made is the log line or is addressed to
    the scanned view. *)
Theorem scan_touches_only_its_view host view force s :
  ∃ s' evs,
    UrlHighlighter.update_url_highlights host view force s = (Ok tt, s') ∧
    trace s' = trace s ++ evs ∧
    Forall (concerns (View.id view)) evs ∧
    highlight_semaphore s' = highlight_semaphore s ∧
    ∀ j, j ≠ View.id view →
      urls_for_view s' !! j = urls_for_view s !! j ∧
      scopes_for_view s' !! j = scopes_for_view s !! j ∧
      (j ∈ ignored_views s' ↔ j ∈ ignored_views s).
Proof.
  scan_cases host view force s.
  - exists s, []. rewrite app_nil_r. by repeat split.
  - eexists _, _. split; [done|]. simpl. split; [done|].
    split; [by repeat constructor|]. split; [done|].
    intros j Hj. split; [done|]. split; [done|].
    rewrite elem_of_app, list_elem_of_singleton.
    split; [by intros [?|?]|by left].
  - eexists _, _. split; [done|]. simpl. split; [done|].
    split; [apply Forall_app; split;
            [apply marker_groups_concern|apply erasures_concern]|].
    split; [done|]. intros j Hj.
    by rewrite !lookup_insert_ne by done.
  - exists (store_urls view (scan host view) s), []. simpl.
    rewrite app_nil_r. split; [done|]. split; [done|]. split; [done|].
    split; [done|]. intros j Hj. by rewrite lookup_insert_ne by done.
  - exists s, []. rewrite app_nil_r. by repeat split.
Qed.

(** X2: scanning an unchanged view a second time, under the same settings,
    leaves the three tables as the first scan left them, and the second
    scan erases nothing and logs nothing: it only redraws. *)
Theorem scan_twice_is_stable host view force s :
  let s1 := (UrlHighlighter.update_url_highlights host view force s).2 in
  let s2 := (UrlHighlighter.update_url_highlights host view force s1).2 in
  urls_for_view s2 = urls_for_view s1 ∧
  scopes_for_view s2 = scopes_for_view s1 ∧
  ignored_views s2 = ignored_views s1 ∧
  ∃ evs, trace s2 = trace s1 ++ evs ∧ Forall (λ e, is_add e = true) evs.
Proof.
  assert (Hnil : ∀ s0 : State, ∃ evs, trace s0 = trace s0 ++ evs ∧
                   Forall (λ e, is_add e = true) evs)
    by (intros s0; exists []; by rewrite app_nil_r).
  scan_cases host view force s; simpl.
  - rewrite scan_ignored by done. simpl. split; [done|]. split; [done|].
    split; [done|]. apply Hnil.
  - rewrite scan_ignored
      by (simpl; apply elem_of_app; right; apply list_elem_of_here).
    simpl. split; [done|]. split; [done|]. split; [done|].
    exists []. by rewrite app_nil_r.
  - rewrite scan_within_limit, Hhl, highlight_urls_run by done. simpl.
    rewrite !insert_insert_eq. split; [done|]. split; [done|].
    split; [done|]. unfold stored_scopes; simpl.
    rewrite lookup_insert_eq; simpl. rewrite difference_diag_L.
    rewrite elements_empty. eexists. split; [done|]. simpl.
    rewrite app_nil_r. apply Forall_fmap, Forall_true. intros scope.
    apply marker_group_kind.
  - rewrite scan_within_limit, Hhl by done. simpl.
    rewrite insert_insert_eq. split; [done|]. split; [done|].
    split; [done|]. apply Hnil.
  - rewrite scan_gated by done. simpl. split; [done|]. split; [done|].
    split; [done|]. apply Hnil.
Qed.

(** X3: a scan never takes a view out of [ignored_views]: the list only grows
    at its end, and it stays free of duplicates. *)
Theorem scan_never_unignores host view force s :
  let s' := (UrlHighlighter.update_url_highlights host view force s).2 in
  ignored_views s `prefix_of` ignored_views s' ∧
  (NoDup (ignored_views s) → NoDup (ignored_views s')).
Proof.
  scan_cases host view force s; simpl; try done.
  split; [by apply prefix_app_r|].
  intros Hnd. apply NoDup_app. split; [done|].
  split; [|apply NoDup_singleton].
  intros x Hx Hx'%list_elem_of_singleton. by subst x.
Qed.

(** ** The asynchronous path and the gate *)

Lemma with_semaphore_id s : with_semaphore (highlight_semaphore s) s = s.
Proof. by destruct s. Qed.

Lemma update_url_highlights_async_eq host view force s :
  highlight_semaphore s ≠ 0%nat →
  UrlHighlighter.update_url_highlights_async host view force s =
  UrlHighlighter.update_url_highlights host view force s.
Proof.
  intros Hsem.
  destruct (highlight_semaphore s) as [|n] eqn:Hn; [done|].
  destruct (update_url_highlights_async_run host view force s n Hn)
    as (s' & Hbody & _ & ->).
  destruct (update_url_highlights_returns host view force s)
    as (s0 & -> & Hkeep & Hany).
  rewrite Hany in Hbody. injection Hbody as <-.
  rewrite <- Hn, <- Hkeep. unfold with_semaphore at 1; simpl.
  by destruct s0.
Qed.

(** X4: with the semaphore free, [update_url_highlights_async] has exactly the
    effect of [update_url_highlights], the semaphore being back at its
    value on return; with the counter at zero it waits and changes
    nothing. *)
Theorem async_scan_is_scan_when_free host view force s :
  match highlight_semaphore s with
  | O =>
      UrlHighlighter.update_url_highlights_async host view force s
        = (Block, s)
  | S _ =>
      UrlHighlighter.update_url_highlights_async host view force s
        = UrlHighlighter.update_url_highlights host view force s ∧
      highlight_semaphore
        (UrlHighlighter.update_url_highlights_async host view force s).2
        = highlight_semaphore s
  end.
Proof.
  destruct (highlight_semaphore s) as [|n] eqn:Hn.
  - by apply update_url_highlights_async_waits.
  - rewrite update_url_highlights_async_eq by (by rewrite Hn).
    split; [done|].
    destruct (update_url_highlights_returns host view force s)
      as (s0 & -> & Hkeep & _). simpl. by rewrite Hkeep.
Qed.

(** X5: with [auto_find_urls] off every event handler leaves the state as it
    is, while the find-URLs command scans as an event handler does with
    the setting on. *)
Theorem find_urls_ignores_gate host view s
    (Hauto : Settings.auto_find_urls (load_settings host) = false)
    (Hsem : highlight_semaphore s ≠ 0%nat) :
  UrlHighlighter.on_activated host view s = (Ok tt, s) ∧
  UrlHighlighter.on_load host view s = (Ok tt, s) ∧
  UrlHighlighter.on_modified host view s = (Ok tt, s) ∧
  UrlHighlighter.on_load_async host view s = (Ok tt, s) ∧
  UrlHighlighter.on_modified_async host view s = (Ok tt, s) ∧
  FindUrlsCommand.run host view s =
    UrlHighlighter.on_activated (with_auto_find_urls true host) view s.
Proof.
  unfold UrlHighlighter.on_activated, UrlHighlighter.on_load,
    UrlHighlighter.on_modified, UrlHighlighter.on_load_async,
    UrlHighlighter.on_modified_async, FindUrlsCommand.run.
  rewrite !update_url_highlights_async_eq by done.
  rewrite scan_gated by done.
  split; [done|].
  split; [destruct (Py.str_lt _ _); [by apply scan_gated|done]|].
  split; [destruct (Py.str_lt _ _); [by apply scan_gated|done]|].
  split; [done|]. split; [done|].
  reflexivity.
Qed.

Lemma find_urls_ignores_gate_witness :
  UrlHighlighter.on_modified_async
    (with_auto_find_urls false default_host) (view_7 two_matches []) initial
    = (Ok tt, initial) ∧
  stored_matches
    (FindUrlsCommand.run (with_auto_find_urls false default_host)
       (view_7 two_matches []) initial).2 (view_7 two_matches [])
    = two_matches.
Proof.
  destruct (find_urls_ignores_gate (with_auto_find_urls false default_host)
              (view_7 two_matches []) initial)
    as (_ & _ & _ & _ & Hasync & Hfind).
  - reflexivity.
  - discriminate.
  - split; [exact Hasync|]. rewrite Hfind. reflexivity.
Defined.

(** ** Further properties of [on_close] *)

Lemma on_close_run view s :
  UrlHighlighter.on_close view s =
    if decide (View.id view ∈ ignored_views s) then
      if decide (View.id view < length (ignored_views s))%nat then
        (Ok tt,
         mkState (delete (View.id view) (urls_for_view s))
           (delete (View.id view) (scopes_for_view s))
           (delete (View.id view) (ignored_views s))
           (highlight_semaphore s) (trace s))
      else
        (Raise Py.IndexError,
         mkState (delete (View.id view) (urls_for_view s))
           (delete (View.id view) (scopes_for_view s))
           (ignored_views s) (highlight_semaphore s) (trace s))
    else
      (Ok tt,
       mkState (delete (View.id view) (urls_for_view s))
         (delete (View.id view) (scopes_for_view s))
         (ignored_views s) (highlight_semaphore s) (trace s)).
Proof.
  destruct (decide (View.id view ∈ ignored_views s)) as [Hin|Hnot];
    [|by apply on_close_not_ignored].
  unfold UrlHighlighter.on_close, Py.list_del; unfold_m; simpl.
  repeat (case_decide; simpl); try done;
    rewrite ?(delete_id (urls_for_view s)) by (by apply not_elem_of_dom);
    rewrite ?(delete_id (scopes_for_view s)) by (by apply not_elem_of_dom);
    try done; by destruct s.
Qed.

(** X6: [on_close] raises [IndexError] exactly when the view is ignored and its
    identifier is not an index of [ignored_views], and returns otherwise.
    In every case it makes no host call, leaves the semaphore alone, removes
    the view's entries from the two dicts and keeps those of every other
    view. *)
Theorem on_close_outcome view s :
  let r := (UrlHighlighter.on_close view s).1 in
  let s' := (UrlHighlighter.on_close view s).2 in
  (r = Raise Py.IndexError ↔
     View.id view ∈ ignored_views s ∧
     (length (ignored_views s) ≤ View.id view)%nat) ∧
  (r = Ok tt ∨ r = Raise Py.IndexError) ∧
  trace s' = trace s ∧
  highlight_semaphore s' = highlight_semaphore s ∧
  urls_for_view s' = delete (View.id view) (urls_for_view s) ∧
  scopes_for_view s' = delete (View.id view) (scopes_for_view s).
Proof.
  rewrite on_close_run.
  destruct (decide (View.id view ∈ ignored_views s)) as [Hin|Hnot];
    [destruct (decide (View.id view < length (ignored_views s))%nat)|];
    simpl; repeat split; try done; try (by left); try (by right);
    try (by intros [? ?]); try lia.
Qed.

Lemma delete_keeps_elsewhere {A} (l : list A) i x :
  x ∈ l → x ∉ delete i l → l !! i = Some x.
Proof.
  intros Hin Hnot. rewrite delete_take_drop in Hnot.
  destruct (l !! i) as [y|] eqn:Hi.
  - rewrite <- (take_drop_middle l i y Hi) in Hin.
    rewrite elem_of_app, elem_of_cons in Hin.
    rewrite elem_of_app in Hnot.
    destruct Hin as [?|[->|?]]; [|done|]; exfalso; apply Hnot; auto.
  - apply lookup_ge_None in Hi. exfalso. apply Hnot.
    rewrite drop_ge by lia. rewrite app_nil_r, take_ge by lia. done.
Qed.

Lemma NoDup_delete_own {A} (l : list A) i x :
  NoDup l → l !! i = Some x → x ∉ delete i l.
Proof.
  intros Hnd Hi. rewrite delete_take_drop.
  rewrite <- (take_drop_middle l i x Hi) in Hnd.
  apply NoDup_app in Hnd as (_ & Hdis & Hnd').
  apply NoDup_cons in Hnd' as [Hx _].
  intros [Ht|Hd]%elem_of_app; [|done].
  apply (Hdis x Ht), list_elem_of_here.
Qed.

(** X7: closing takes a view out of [ignored_views] only when the view sits in
    the list at the position equal to its own identifier. *)
Theorem on_close_unignores_iff view s
    (Hnd : NoDup (ignored_views s)) :
  let s' := (UrlHighlighter.on_close view s).2 in
  View.id view ∉ ignored_views s' ↔
  View.id view ∉ ignored_views s ∨
  ignored_views s !! View.id view = Some (View.id view).
Proof.
  rewrite on_close_run.
  destruct (decide (View.id view ∈ ignored_views s)) as [Hin|Hnot];
    [destruct (decide (View.id view < length (ignored_views s))%nat)
       as [Hlt|Hge]|]; simpl.
  - split.
    + intros Hgone. right. by apply delete_keeps_elsewhere.
    + intros [?|Hat]; [done|]. by apply NoDup_delete_own.
  - split; [done|]. intros [?|Hat]; [done|].
    apply lookup_lt_Some in Hat. lia.
  - split; [by left|done].
Qed.

Lemma on_close_unignores_iff_witness :
  7%nat ∉ ignored_views
           (UrlHighlighter.on_close (view_7 [] []) over_limit).2 ↔
  7%nat ∉ ignored_views over_limit ∨
  ignored_views over_limit !! 7%nat = Some 7%nat.
Proof.
  apply (on_close_unignores_iff (view_7 [] []) over_limit).
  apply NoDup_singleton.
Defined.

(** ** Further properties of the commands *)

Lemma open_url_run host url view s :
  ∃ evs,
    open_url host url view s = (Ok tt, with_trace s evs) ∧
    Forall (λ e, ∀ groups, draw groups e = groups) evs.
Proof.
  unfold open_url. destruct (isfile host url).
  - eexists. split; [done|]. by repeat constructor.
  - unfold webbrowser_open; unfold_m.
    destruct (browser_open host _ url); simpl.
    + eexists. split; [done|]. by repeat constructor.
    + exists [BrowserOpen
                (Settings.clickable_urls_browser (load_settings host)) url;
              ErrorMessage browser_error_message].
      split; [|by repeat constructor].
      unfold with_trace; simpl. by rewrite <- app_assoc.
Qed.

(** X8: open-under-cursor returns without a call when the view has no stored
    matches, raises [IndexError] when it has some but the view has no
    selection, and otherwise opens at most one text: that of the selection
    or of a stored match.  It never changes the tables. *)
Theorem open_under_cursor_outcome host view s :
  match urls_for_view s !! View.id view, View.sel view with
  | None, _ => OpenUrlUnderCursorCommand.run host view s = (Ok tt, s)
  | Some _, [] =>
      OpenUrlUnderCursorCommand.run host view s = (Raise Py.IndexError, s)
  | Some urls, selection :: _ =>
      ∃ evs,
        OpenUrlUnderCursorCommand.run host view s
          = (Ok tt, with_trace s evs) ∧
        (evs = [] ∨
         ∃ target, (target ∈ urls ∨ target = selection) ∧
           open_url host (View.substr view target) view s
             = (Ok tt, with_trace s evs))
  end.
Proof.
  unfold OpenUrlUnderCursorCommand.run; unfold_m.
  destruct (urls_for_view s !! View.id view) as [urls|]; [|done].
  destruct (View.sel view) as [|selection others]; [done|]. simpl.
  destruct (Region.empty selection).
  - unfold OpenUrlUnderCursorCommand.first_containing.
    destruct (find _ urls) as [m|] eqn:Hfind.
    + destruct (Region.truth m); simpl.
      * destruct (open_url_run host (View.substr view m) view s)
          as (evs & Hopen & _).
        exists evs. split; [done|]. right.
        exists m. split; [|done].
        left. apply list_elem_of_In. by apply find_some in Hfind as [? _].
      * exists []. rewrite with_trace_nil. by split; [|left].
    + exists []. rewrite with_trace_nil. by split; [|left].
  - destruct (open_url_run host (View.substr view selection) view s)
      as (evs & Hopen & _).
    exists evs. split; [done|]. right.
    exists selection. split; [by right|done].
Qed.

(** X9: open-all never makes a host call and never changes the state: it
    returns when the view has no stored match and raises [NameError] as
    soon as it has one. *)
Theorem open_all_outcome host view s :
  OpenAllUrlsCommand.run host view s =
    match urls_for_view s !! View.id view with
    | Some (_ :: _) => (Raise (Py.NameError "view"), s)
    | _ => (Ok tt, s)
    end.
Proof.
  destruct (urls_for_view s !! View.id view) as [[|url urls]|] eqn:Hstored.
  - unfold OpenAllUrlsCommand.run; unfold_m. by rewrite Hstored.
  - by apply (open_all_raises _ _ _ (url :: urls)).
  - unfold OpenAllUrlsCommand.run; unfold_m. by rewrite Hstored.
Qed.

(** ** What a session keeps *)

Lemma well_formed_with_trace s evs :
  well_formed s → well_formed (with_trace s evs).
Proof. done. Qed.

Lemma scan_well_formed host view force s :
  well_formed s →
  well_formed (UrlHighlighter.update_url_highlights host view force s).2.
Proof.
  intros (Hsem & Hnd & Hdom & Hscopes).
  scan_cases host view force s; simpl; try done.
  - split; [done|]. split; [|done].
    apply NoDup_app. split; [done|]. split; [|apply NoDup_singleton].
    intros x Hx Hx'%list_elem_of_singleton. by subst x.
  - split; [done|]. split; [done|]. split; simpl.
    + intros j. rewrite !lookup_insert. case_decide; [by eauto|]. apply Hdom.
    + intros j scopes. rewrite lookup_insert. case_decide; [|apply Hscopes].
      intros [= <-]. apply scope_map_of_spec.
  - split; [done|]. split; [done|]. split; simpl; [|done].
    intros j Hj. rewrite lookup_insert. case_decide; [by eauto|by apply Hdom].
Qed.

Lemma on_close_well_formed view s :
  well_formed s → well_formed (UrlHighlighter.on_close view s).2.
Proof.
  intros (Hsem & Hnd & Hdom & Hscopes). rewrite on_close_run.
  assert (Hdom' : ∀ j,
            is_Some (delete (View.id view) (scopes_for_view s) !! j) →
            is_Some (delete (View.id view) (urls_for_view s) !! j)).
  { intros j. rewrite !lookup_delete. case_decide; [by intros [? ?]|].
    apply Hdom. }
  assert (Hscopes' : ∀ j scopes,
            delete (View.id view) (scopes_for_view s) !! j = Some scopes →
            NoDup scopes).
  { intros j scopes. rewrite lookup_delete. case_decide; [done|].
    apply Hscopes. }
  repeat case_decide; simpl; repeat split; try done.
  eapply sublist_NoDup; [done|apply sublist_delete].
Qed.

Lemma open_under_cursor_state host view s :
  ∃ r evs,
    OpenUrlUnderCursorCommand.run host view s = (r, with_trace s evs) ∧
    r ≠ Block ∧ Forall (λ e, ∀ groups, draw groups e = groups) evs.
Proof.
  assert (Hnone : ∀ r, r ≠ Block → ∃ (r' : Res unit) evs,
            (r, s) = (r', with_trace s evs) ∧ r' ≠ Block ∧
            Forall (λ e, ∀ groups, draw groups e = groups) evs).
  { intros r Hr. exists r, []. by rewrite with_trace_nil. }
  assert (Hopen : ∀ url, ∃ (r' : Res unit) evs,
            open_url host url view s = (r', with_trace s evs) ∧ r' ≠ Block ∧
            Forall (λ e, ∀ groups, draw groups e = groups) evs).
  { intros url. destruct (open_url_run host url view s) as (evs & -> & ?).
    by exists (Ok tt), evs. }
  unfold OpenUrlUnderCursorCommand.run; unfold_m.
  destruct (urls_for_view s !! View.id view) as [urls|]; [|by apply Hnone].
  destruct (View.sel view) as [|selection others]; [by apply Hnone|]. simpl.
  destruct (Region.empty selection); [|apply Hopen].
  destruct (OpenUrlUnderCursorCommand.first_containing urls selection)
    as [m|]; [|by apply Hnone].
  destruct (Region.truth m); simpl; [apply Hopen|by apply Hnone].
Qed.

Lemma open_all_state host view s :
  (OpenAllUrlsCommand.run host view s).2 = s ∧
  (OpenAllUrlsCommand.run host view s).1 ≠ Block.
Proof.
  destruct (urls_for_view s !! View.id view) as [[|url urls]|] eqn:Hstored.
  - unfold OpenAllUrlsCommand.run; unfold_m. by rewrite Hstored.
  - by rewrite (open_all_raises _ _ _ (url :: urls)).
  - unfold OpenAllUrlsCommand.run; unfold_m. by rewrite Hstored.
Qed.

Lemma after_well_formed c s : well_formed s → well_formed (after c s).
Proof.
  intros Hwf. assert (Hsem : highlight_semaphore s ≠ 0%nat)
    by (destruct Hwf as [-> _]; done).
  unfold after. destruct c as [host view|host view|host view|host view
    |host view|view|host view|host view|host view]; simpl.
  - by apply scan_well_formed.
  - unfold UrlHighlighter.on_load.
    destruct (Py.str_lt _ _); [by apply scan_well_formed|done].
  - unfold UrlHighlighter.on_modified.
    destruct (Py.str_lt _ _); [by apply scan_well_formed|done].
  - unfold UrlHighlighter.on_load_async.
    rewrite update_url_highlights_async_eq by done.
    by apply scan_well_formed.
  - unfold UrlHighlighter.on_modified_async.
    rewrite update_url_highlights_async_eq by done.
    by apply scan_well_formed.
  - by apply on_close_well_formed.
  - unfold FindUrlsCommand.run.
    rewrite update_url_highlights_async_eq by done.
    by apply scan_well_formed.
  - destruct (open_under_cursor_state host view s) as (r & evs & -> & _).
    by apply well_formed_with_trace.
  - by rewrite (proj1 (open_all_state host view s)).
Qed.

Lemma session_snoc calls c :
  session (calls ++ [c]) = after c (session calls).
Proof. unfold session. by rewrite foldl_snoc. Qed.

Lemma session_invariant calls : well_formed (session calls).
Proof.
  induction calls as [|c calls IH] using rev_ind.
  - repeat split; try done; [constructor|intros id [? ?]; done].
  - rewrite session_snoc. by apply after_well_formed.
Qed.

Lemma handler_not_block c s :
  highlight_semaphore s ≠ 0%nat → (handler c s).1 ≠ Block.
Proof.
  intros Hsem.
  assert (Hscan : ∀ host view force,
            (UrlHighlighter.update_url_highlights host view force s).1
              ≠ Block).
  { intros host view force.
    by destruct (update_url_highlights_returns host view force s)
      as (s' & -> & _). }
  destruct c as [host view|host view|host view|host view
    |host view|view|host view|host view|host view]; simpl.
  - apply Hscan.
  - unfold UrlHighlighter.on_load. destruct (Py.str_lt _ _); [apply Hscan|done].
  - unfold UrlHighlighter.on_modified.
    destruct (Py.str_lt _ _); [apply Hscan|done].
  - unfold UrlHighlighter.on_load_async.
    rewrite update_url_highlights_async_eq by done. apply Hscan.
  - unfold UrlHighlighter.on_modified_async.
    rewrite update_url_highlights_async_eq by done. apply Hscan.
  - rewrite on_close_run. by repeat case_decide.
  - unfold FindUrlsCommand.run.
    rewrite update_url_highlights_async_eq by done. apply Hscan.
  - by destruct (open_under_cursor_state host view s) as (r & evs & -> & ? & _).
  - apply open_all_state.
Qed.

(** X10: whatever calls the host has made since import, no view is listed twice
    in [ignored_views], every view that has stored scopes has stored
    matches, and no stored scope list holds a label twice. *)
Theorem session_tables_consistent calls :
  let s := session calls in
  NoDup (ignored_views s) ∧
  (∀ id, is_Some (scopes_for_view s !! id) →
         is_Some (urls_for_view s !! id)) ∧
  (∀ id scopes, scopes_for_view s !! id = Some scopes → NoDup scopes).
Proof. apply session_invariant. Qed.

(** X11: when calls follow one another, the semaphore is free before each of
    them, so none of them waits: every call returns or raises. *)
Theorem session_never_waits calls c :
  highlight_semaphore (session calls) = 1%nat ∧
  (handler c (session calls)).1 ≠ Block.
Proof.
  destruct (session_invariant calls) as [Hsem _]. split; [done|].
  apply handler_not_block. by rewrite Hsem.
Qed.

(** ** Marker groups on screen *)

Lemma region_key_inj scope1 scope2 :
  UrlHighlighter.region_key scope1 = UrlHighlighter.region_key scope2 →
  scope1 = scope2.
Proof.
  unfold UrlHighlighter.region_key. intros H.
  cbv [String.append] in H. by injection H.
Qed.

Lemma drawn_app evs1 evs2 :
  drawn (evs1 ++ evs2) = foldl draw (drawn evs1) evs2.
Proof. unfold drawn. by rewrite foldl_app. Qed.

Lemma draw_marker_groups host view urls scopes groups :
  foldl draw groups (marker_groups host view urls scopes) =
  groups ∪
  list_to_set
    ((λ scope, (View.id view, UrlHighlighter.region_key scope)) <$> scopes).
Proof.
  revert groups. induction scopes as [|scope scopes IH]; intros groups.
  - simpl. by rewrite (right_id_L ∅ (∪)).
  - unfold marker_groups in *. rewrite !fmap_cons. simpl. rewrite IH.
    unfold marker_group.
    destruct (Py.str_ge _ _); simpl; apply set_eq; intros x;
      set_unfold; tauto.
Qed.

Lemma draw_erasures view scopes groups :
  foldl draw groups (erasures view scopes) =
  groups ∖
  list_to_set
    ((λ scope, (View.id view, UrlHighlighter.region_key scope)) <$> scopes).
Proof.
  revert groups. induction scopes as [|scope scopes IH]; intros groups.
  - simpl. by rewrite difference_empty_L.
  - unfold erasures in *. rewrite !fmap_cons. simpl. rewrite IH.
    apply set_eq; intros x; set_unfold; tauto.
Qed.

Lemma draw_neutral evs groups :
  Forall (λ e, ∀ groups, draw groups e = groups) evs →
  foldl draw groups evs = groups.
Proof.
  induction 1 as [|e evs He _ IH]; [done|]. simpl. by rewrite He.
Qed.

Lemma elem_of_keyed (id j : nat) key (scopes : list string) :
  (j, key) ∈ (list_to_set
     ((λ scope, (id, UrlHighlighter.region_key scope)) <$> scopes)
     : gset (nat * string)) ↔
  j = id ∧ ∃ scope, scope ∈ scopes ∧ key = UrlHighlighter.region_key scope.
Proof.
  rewrite elem_of_list_to_set, list_elem_of_fmap. split.
  - intros (scope & [= -> ->] & Hin). eauto.
  - intros (-> & scope & Hin & ->). eauto.
Qed.

Lemma scan_markers_match host view force s :
  markers_match s →
  markers_match (UrlHighlighter.update_url_highlights host view force s).2.
Proof.
  intros Hmatch.
  scan_cases host view force s; simpl; try done.
  - intros j key. simpl. rewrite drawn_app. simpl. apply Hmatch.
  - intros j key. simpl.
    rewrite drawn_app, foldl_app, draw_marker_groups, draw_erasures.
    rewrite elem_of_difference, elem_of_union, !elem_of_keyed.
    rewrite (Hmatch j key), lookup_insert.
    unfold stored_scopes; simpl.
    set (new := Py.keys (UrlHighlighter.scope_map_of view (scan host view))).
    case_decide as Hj; simpl.
    + subst j. split.
      * intros [[(scope & Hold & ->)|(_ & scope & Hnew & ->)] Hkept];
          [|by eauto].
        exists scope. split; [|done].
        destruct (decide (scope ∈ new)) as [?|Hfresh]; [done|].
        exfalso. apply Hkept. split; [done|]. exists scope. split; [|done].
        apply elem_of_elements, elem_of_difference.
        unfold Py.set_of. by rewrite !elem_of_list_to_set.
      * intros (scope & Hnew & ->). split; [by eauto|].
        intros (_ & scope' & Hunused & ->%region_key_inj).
        apply elem_of_elements, elem_of_difference in Hunused as [_ Hout].
        apply Hout. unfold Py.set_of. by rewrite elem_of_list_to_set.
    + split.
      * intros [[?|[? _]] _]; [done|congruence].
      * intros Hscope. split; [by left|]. intros [? _]. congruence.
Qed.

Lemma after_markers_match c s :
  is_close c = false → highlight_semaphore s ≠ 0%nat →
  markers_match s → markers_match (after c s).
Proof.
  intros Hc Hsem Hmatch. unfold after.
  destruct c as [host view|host view|host view|host view
    |host view|view|host view|host view|host view]; simpl; try done.
  - by apply scan_markers_match.
  - unfold UrlHighlighter.on_load.
    destruct (Py.str_lt _ _); [by apply scan_markers_match|done].
  - unfold UrlHighlighter.on_modified.
    destruct (Py.str_lt _ _); [by apply scan_markers_match|done].
  - unfold UrlHighlighter.on_load_async.
    rewrite update_url_highlights_async_eq by done.
    by apply scan_markers_match.
  - unfold UrlHighlighter.on_modified_async.
    rewrite update_url_highlights_async_eq by done.
    by apply scan_markers_match.
  - unfold FindUrlsCommand.run.
    rewrite update_url_highlights_async_eq by done.
    by apply scan_markers_match.
  - destruct (open_under_cursor_state host view s)
      as (r & evs & -> & _ & Hevs).
    intros j key. simpl. rewrite drawn_app, draw_neutral by done.
    apply Hmatch.
  - by rewrite (proj1 (open_all_state host view s)).
Qed.

(** X12: as long as no view is closed, the marker groups on screen are exactly
    those of the scopes stored: after any series of scans and commands, a
    group is drawn under a key exactly when the key is that of a scope
    stored for the view, so no underline of a scope that is no longer used
    is left behind. *)
Theorem session_markers_match calls
    (Hopen : Forall (λ c, is_close c = false) calls) :
  markers_match (session calls).
Proof.
  induction calls as [|c calls IH] using rev_ind.
  - intros id key. unfold session; simpl. split; [by intros ?%elem_of_empty|].
    rewrite lookup_empty. simpl. by intros (? & ?%elem_of_nil & _).
  - apply Forall_app in Hopen as [Hcalls Hc].
    apply Forall_cons in Hc as [Hc _].
    rewrite session_snoc. apply after_markers_match; [done| |by apply IH].
    by destruct (session_invariant calls) as [-> _].
Qed.

Lemma session_markers_match_witness :
  markers_match
    (session [CallOnModifiedAsync default_host (view_7 two_matches []);
              CallOpenUrlUnderCursor default_host
                (view_7 two_matches [Region.mk 12 12]);
              CallFindUrls default_host (view_7 [Region.mk 10 15] [])]).
Proof.
  apply session_markers_match.
  repeat (constructor; [reflexivity|]). constructor.
Defined.

Example session_redraws_only_b :
  let s :=
    session [CallOnModifiedAsync default_host (view_7 two_matches []);
             CallFindUrls default_host (view_7 [Region.mk 10 15] [])] in
  stored_scopes s (view_7 [] []) = ["b"] ∧
  drawn (trace s) = {[ (7%nat, "clickable-urls b") ]}.
Proof. by vm_compute. Qed.

(** ** What is underlined *)

Lemma concat_setdefault_append {V} k (v : V) d :
  concat (Py.setdefault_append k v d).*2 ≡ₚ concat d.*2 ++ [v].
Proof.
  induction d as [|[k' vs] d IH]; [done|].
  cbn [Py.setdefault_append]. destruct (decide (k' = k)).
  - rewrite !fmap_cons. cbn [snd concat].
    rewrite <- !app_assoc. f_equiv. apply Permutation_app_comm.
  - rewrite !fmap_cons. cbn [snd concat]. rewrite IH.
    by rewrite app_assoc.
Qed.

Lemma concat_scope_map_of view urls :
  concat (UrlHighlighter.scope_map_of view urls).*2 ≡ₚ urls.
Proof.
  induction urls as [|url urls IH] using rev_ind; [done|].
  by rewrite scope_map_of_snoc, concat_setdefault_append, IH.
Qed.

Lemma grouped_values view urls (d : list (string * list Region.t)) :
  (∀ k vs, (k, vs) ∈ d → vs = group_of view urls k) →
  group_of view urls <$> Py.keys d = d.*2.
Proof.
  unfold Py.keys. induction d as [|[k vs] d IH]; intros Hd; [done|].
  rewrite !fmap_cons. cbn [fst snd]. f_equal.
  - symmetry. apply Hd, list_elem_of_here.
  - apply IH. intros k' vs' Hin. by apply Hd, list_elem_of_further.
Qed.

Lemma added_regions_app evs1 evs2 :
  added_regions (evs1 ++ evs2) = added_regions evs1 ++ added_regions evs2.
Proof. unfold added_regions. apply bind_app. Qed.

Lemma added_regions_erasures view scopes :
  added_regions (erasures view scopes) = [].
Proof. induction scopes as [|scope scopes IH]; [done|]. exact IH. Qed.

Lemma added_regions_marker_groups host view urls scopes :
  Py.str_ge (version host) "3019" = true →
  added_regions (marker_groups host view urls scopes)
  = concat (group_of view urls <$> scopes).
Proof.
  intros Hv. induction scopes as [|scope scopes IH]; [done|].
  unfold marker_groups, added_regions in *. rewrite !fmap_cons. cbn.
  rewrite <- IH. f_equal. unfold marker_group. by rewrite Hv.
Qed.

(** X13: on a host with native underlining, one highlighting cycle hands every
    match to [add_regions] exactly once: the regions of all the groups
    drawn are, up to order, the matches. *)
Theorem highlight_urls_draws_each_match_once host view urls s
    (Hv : Py.str_ge (version host) "3019" = true) :
  ∃ evs,
    trace (UrlHighlighter.highlight_urls host view urls s).2
      = trace s ++ evs ∧
    added_regions evs ≡ₚ urls.
Proof.
  rewrite highlight_urls_run. simpl. eexists. split; [done|].
  rewrite added_regions_app, added_regions_erasures, app_nil_r.
  rewrite added_regions_marker_groups by done.
  rewrite (grouped_values view urls) by apply scope_map_of_spec.
  apply concat_scope_map_of.
Qed.

Lemma highlight_urls_draws_each_match_once_witness :
  ∃ evs,
    trace (UrlHighlighter.highlight_urls default_host
             (view_7 three_matches []) three_matches initial).2
      = trace initial ++ evs ∧
    added_regions evs ≡ₚ three_matches.
Proof.
  apply (highlight_urls_draws_each_match_once default_host
           (view_7 three_matches []) three_matches initial).
  reflexivity.
Defined.




(** ** The asynchronous entry points run to their end *)

Section Progress.

Import Threads.
Local Open Scope nat_scope.

Lemma sum_list_with_insert {A} (f : A → nat) (l : list A) i x y :
  l !! i = Some x →
  sum_list_with f (<[i := y]> l) + f x = sum_list_with f l + f y.
Proof.
  revert i; induction l as [|z l IH]; intros [|i] Hi; try done; simpl in *.
  - injection Hi as ->. lia.
  - specialize (IH i Hi). lia.
Qed.

Lemma exec_consumes sem t sem' t' :
  exec sem t = Some (sem', t') → length (code t) = S (length (code t')).
Proof.
  unfold exec. destruct (code t) as [|[| | | |] rest] eqn:Hcode;
    try destruct sem; intros [= <- <-]; done.
Qed.

Lemma step_consumes sys sys' : step sys sys' → remaining sys' < remaining sys.
Proof.
  intros [sys0 i t sem' t' Hi Hexec]. unfold remaining; simpl.
  pose proof (sum_list_with_insert (λ t, length (code t)) _ _ _ t' Hi).
  apply exec_consumes in Hexec. simpl in *. lia.
Qed.

Lemma exec_when_free n t : code t ≠ [] → is_Some (exec (S n) t).
Proof.
  unfold exec. by destruct (code t) as [|[| | | |] rest].
Qed.

Lemma holder_can_step t : on_track t → holds t ≠ 0 → is_Some (exec 0 t).
Proof.
  intros (w & k & Hk & ->).
  destruct w;
    do 7 (destruct k as [|k]; [vm_compute; by eauto|]); lia.
Qed.

Lemma some_holder (l : list Thread) :
  sum_list_with holds l ≠ 0 → ∃ i t, l !! i = Some t ∧ holds t ≠ 0.
Proof.
  induction l as [|t l IH]; [done|]. simpl. intros Hsum.
  destruct (decide (holds t = 0)) as [Hz|Hnz].
  - destruct IH as (i & t' & Hi & Ht'); [lia|]. by exists (S i), t'.
  - by exists 0, t.
Qed.

Lemma finished_or_not (l : list Thread) :
  Forall (λ t, code t = []) l ∨ ∃ i t, l !! i = Some t ∧ code t ≠ [].
Proof.
  induction l as [|t l IH]; [by left|].
  destruct (code t) as [|instr rest] eqn:Hcode.
  - destruct IH as [Hall|(i & t' & Hi & Ht')].
    + left. by constructor.
    + right. by exists (S i), t'.
  - right. exists 0, t. by rewrite Hcode.
Qed.

Lemma locked_progress runs sys :
  Forall2 thread_ok runs (threads sys) → balanced sys →
  finished sys ∨ ∃ sys', step sys sys'.
Proof.
  intros Htrack Hbal.
  destruct (finished_or_not (threads sys)) as [?|(i & t & Hi & Hcode)];
    [by left|]. right.
  destruct (semaphore sys) as [|n] eqn:Hsem.
  - unfold balanced in Hbal. rewrite Hsem in Hbal.
    destruct (some_holder (threads sys)) as (j & t' & Hj & Hholds); [lia|].
    destruct (Forall2_lookup_r _ _ _ _ _ Htrack Hj) as (r & _ & Hok).
    assert (Ht' : on_track t').
    { unfold thread_ok in Hok. destruct (takes_lock r.1); [done|].
      by destruct Hok as [? _]. }
    destruct (holder_can_step t' Ht' Hholds) as [[sem' t''] Hexec].
    eexists. apply (step_thread sys j t' sem' t''); [done|].
    by rewrite Hsem.
  - destruct (exec_when_free n t Hcode) as [[sem' t'] Hexec].
    eexists. apply (step_thread sys i t sem' t'); [done|].
    by rewrite Hsem.
Qed.

(** X15: the semaphore never wedges the entry points: from every state
    that any set of them can reach together, whichever way each call goes
    (early return, view over the limit, stored, highlighted) and whatever
    the interleaving so far, they can all run to their end. *)
Theorem async_entry_points_can_finish version runs sys
    (Hreach : reachable (programs version runs) sys) :
  ∃ sys', rtc step sys sys' ∧ finished sys'.
Proof.
  remember (remaining sys) as n eqn:Hn.
  revert sys Hn Hreach.
  induction n as [n IH] using lt_wf_ind. intros sys -> Hreach.
  destruct (locked_invariant version runs sys Hreach) as [Htrack Hbal].
  destruct (locked_progress runs sys Htrack Hbal) as [Hfin|[sys' Hstep]].
  - exists sys. split; [apply rtc_refl|done].
  - destruct (IH (remaining sys') (step_consumes _ _ Hstep) sys' eq_refl)
      as (sys'' & Hsteps & Hfin).
    + unfold reachable in *. by eapply rtc_r.
    + exists sys''. split; [by eapply rtc_l|done].
Qed.

Lemma async_entry_points_can_finish_witness :
  ∃ sys',
    rtc step
      (spawn (programs "3126"
                [(OnModifiedAsync, Highlighted); (FindUrlsCommand, Gated);
                 (OnActivated, Stored); (OnLoadAsync, AlreadyIgnored)]))
      sys' ∧
    finished sys'.
Proof.
  apply (async_entry_points_can_finish "3126"
           [(OnModifiedAsync, Highlighted); (FindUrlsCommand, Gated);
            (OnActivated, Stored); (OnLoadAsync, AlreadyIgnored)]).
  apply rtc_refl.
Defined.

End Progress.

(** ** Ignored views stay as they are *)

Lemma scan_frozen host view force s id :
  id ∈ ignored_views s →
  let s' := (UrlHighlighter.update_url_highlights host view force s).2 in
  id ∈ ignored_views s' ∧
  urls_for_view s' !! id = urls_for_view s !! id ∧
  scopes_for_view s' !! id = scopes_for_view s !! id.
Proof.
  intros Hin.
  scan_cases host view force s; simpl; try done.
  - split; [|done]. apply elem_of_app. by left.
  - assert (Hne : View.id view ≠ id)
      by (intros Heq; apply Hnot; by rewrite Heq).
    split; [done|]. split; by apply lookup_insert_ne.
  - assert (Hne : View.id view ≠ id)
      by (intros Heq; apply Hnot; by rewrite Heq).
    split; [done|]. split; [by apply lookup_insert_ne|done].
Qed.

(** X16: once a view is ignored, no call other than a close changes what is
    stored for it: it stays ignored, and its stored matches and scopes,
    left over from earlier scans or absent, stay as they are. *)
Theorem ignored_view_is_frozen c s id
    (Hc : is_close c = false)
    (Hsem : highlight_semaphore s ≠ 0%nat)
    (Hin : id ∈ ignored_views s) :
  id ∈ ignored_views (after c s) ∧
  urls_for_view (after c s) !! id = urls_for_view s !! id ∧
  scopes_for_view (after c s) !! id = scopes_for_view s !! id.
Proof.
  unfold after.
  destruct c as [host view|host view|host view|host view
    |host view|view|host view|host view|host view]; simpl; try done.
  - by apply scan_frozen.
  - unfold UrlHighlighter.on_load.
    destruct (Py.str_lt _ _); [by apply scan_frozen|done].
  - unfold UrlHighlighter.on_modified.
    destruct (Py.str_lt _ _); [by apply scan_frozen|done].
  - unfold UrlHighlighter.on_load_async.
    rewrite update_url_highlights_async_eq by done. by apply scan_frozen.
  - unfold UrlHighlighter.on_modified_async.
    rewrite update_url_highlights_async_eq by done. by apply scan_frozen.
  - unfold FindUrlsCommand.run.
    rewrite update_url_highlights_async_eq by done. by apply scan_frozen.
  - by destruct (open_under_cursor_state host view s) as (r & evs & -> & _).
  - by rewrite (proj1 (open_all_state host view s)).
Qed.

Lemma ignored_view_is_frozen_witness :
  7%nat ∈ ignored_views
           (after (CallFindUrls default_host (view_7 two_matches []))
              over_limit) ∧
  urls_for_view
    (after (CallFindUrls default_host (view_7 two_matches [])) over_limit)
    !! 7%nat = urls_for_view over_limit !! 7%nat ∧
  scopes_for_view
    (after (CallFindUrls default_host (view_7 two_matches [])) over_limit)
    !! 7%nat = scopes_for_view over_limit !! 7%nat.
Proof.
  apply (ignored_view_is_frozen
           (CallFindUrls default_host (view_7 two_matches [])) over_limit 7).
  - reflexivity.
  - discriminate.
  - apply list_elem_of_here.
Defined.

(** ** The thread programs and the handlers *)

(** The steps listed for a way of [update_url_highlights] cover what the
    handler does when it goes that way: a table whose write is not listed
    is left as it was, and without the scan step no host call is made. *)
Lemma thread_program_covers_scan host view force s :
  let prog := Threads.update_url_highlights (way_of host view force s) in
  let s' := (UrlHighlighter.update_url_highlights host view force s).2 in
  (Threads.Write Threads.UrlsForView ∉ prog →
     urls_for_view s' = urls_for_view s) ∧
  (Threads.Write Threads.ScopesForView ∉ prog →
     scopes_for_view s' = scopes_for_view s) ∧
  (Threads.Write Threads.IgnoredViews ∉ prog →
     ignored_views s' = ignored_views s) ∧
  (Threads.FindAll ∉ prog → s' = s).
Proof.
  unfold way_of.
  destruct (negb force && negb (Settings.auto_find_urls (load_settings host)))
    eqn:Hgated.
  - apply andb_true_iff in Hgated as [Hforce Hauto].
    apply negb_true_iff in Hforce, Hauto. subst force.
    by rewrite scan_gated.
  - assert (Hgate : force || Settings.auto_find_urls (load_settings host)
                    = true)
      by (destruct force, (Settings.auto_find_urls _); done).
    destruct (decide (View.id view ∈ ignored_views s)) as [Hin|Hnot].
    + by rewrite scan_ignored.
    + destruct (Z.gtb_spec (Z.of_nat (length (scan host view)))
                  (Settings.max_url_limit (load_settings host)))
        as [Hover|Hle].
      * rewrite scan_over_limit by done. simpl.
        repeat split; try done;
          intros Hno; exfalso; apply Hno; by repeat constructor.
      * rewrite scan_within_limit by done.
        destruct (Settings.highlight_urls (load_settings host)).
        -- rewrite highlight_urls_run. simpl.
           repeat split; try done;
             intros Hno; exfalso; apply Hno; by repeat constructor.
        -- simpl. repeat split; try done;
             intros Hno; exfalso; apply Hno; by repeat constructor.
Qed.

(** ** The ceiling, over a series of calls *)

Lemma after_keeps_ignored c s id :
  is_close c = false → id ∈ ignored_views s →
  id ∈ ignored_views (after c s).
Proof.
  intros Hc Hin. unfold after.
  assert (Hasync : ∀ host view force,
            id ∈ ignored_views
                   (UrlHighlighter.update_url_highlights_async host view
                      force s).2).
  { intros host view force.
    destruct (highlight_semaphore s) as [|n] eqn:Hsem.
    - by rewrite update_url_highlights_async_waits.
    - rewrite update_url_highlights_async_eq by (by rewrite Hsem).
      by apply scan_frozen. }
  destruct c as [host view|host view|host view|host view
    |host view|view|host view|host view|host view]; simpl.
  - by apply scan_frozen.
  - unfold UrlHighlighter.on_load.
    destruct (Py.str_lt _ _); [by apply scan_frozen|done].
  - unfold UrlHighlighter.on_modified.
    destruct (Py.str_lt _ _); [by apply scan_frozen|done].
  - apply Hasync.
  - apply Hasync.
  - done.
  - apply Hasync.
  - by destruct (open_under_cursor_state host view s) as (r & evs & -> & _).
  - by rewrite (proj1 (open_all_state host view s)).
Qed.

Lemma after_calls_keeps_ignored calls s id :
  Forall (λ c, is_close c = false) calls → id ∈ ignored_views s →
  id ∈ ignored_views (after_calls calls s).
Proof.
  intros Hcalls. revert s.
  induction Hcalls as [|c calls Hc _ IH]; intros s Hin; [done|].
  unfold after_calls in *. simpl. apply IH. by apply after_keeps_ignored.
Qed.

(** C1 (as the code has it): a scan that is not gated off, of a view that is
    not ignored, stores its matches when they are at most [max_url_limit]
    and highlights them when [highlight_urls] is on (with it off nothing is
    drawn).  When they are more, the view joins [ignored_views], the only
    host call is the log line, a view without stored matches still has
    none, and as long as no view is closed every later scan of the view,
    after whatever other calls, leaves the state as it is. *)
Theorem ceiling_policy host view force s
    (Hgate : force || Settings.auto_find_urls (load_settings host) = true)
    (Hnot : View.id view ∉ ignored_views s) :
  ∃ s',
    UrlHighlighter.update_url_highlights host view force s = (Ok tt, s') ∧
    if Z.of_nat (length (scan host view))
         >? Settings.max_url_limit (load_settings host)
    then
      View.id view ∈ ignored_views s' ∧
      (∃ msg, trace s' = trace s ++ [Print msg]) ∧
      (urls_for_view s !! View.id view = None →
       urls_for_view s' !! View.id view = None) ∧
      (∀ calls host' view' force',
         Forall (λ c, is_close c = false) calls →
         View.id view' = View.id view →
         UrlHighlighter.update_url_highlights host' view' force'
           (after_calls calls s')
           = (Ok tt, after_calls calls s'))
    else
      urls_for_view s' !! View.id view = Some (scan host view) ∧
      (View.id view ∉ ignored_views s') ∧
      ∃ evs, trace s' = trace s ++ evs ∧
        if Settings.highlight_urls (load_settings host)
        then highlighted host view (scan host view) evs
        else evs = [].
Proof.
  destruct (Z.gtb_spec (Z.of_nat (length (scan host view)))
              (Settings.max_url_limit (load_settings host))) as [Hover|Hle].
  - rewrite scan_over_limit by done. eexists. split; [done|]. simpl.
    assert (Hin : View.id view ∈ ignored_views s ++ [View.id view])
      by (apply elem_of_app; right; apply list_elem_of_here).
    split; [done|]. split; [by eexists|]. split; [done|].
    intros calls host' view' force' Hcalls Hid. apply scan_ignored.
    rewrite Hid. by apply after_calls_keeps_ignored.
  - rewrite scan_within_limit by done.
    destruct (Settings.highlight_urls (load_settings host)).
    + rewrite highlight_urls_run. eexists. split; [done|]. simpl.
      split; [apply lookup_insert_eq|]. split; [done|].
      eexists. split; [done|].
      intros url Hurl. apply elem_of_app. left.
      unfold marker_groups.
      apply (list_elem_of_fmap_2
               (λ scope, marker_group host view scope
                           (group_of view (scan host view) scope))).
      apply scope_map_of_spec. by exists url.
    + eexists. split; [done|]. simpl.
      split; [apply lookup_insert_eq|]. split; [done|].
      exists []. by rewrite app_nil_r.
Qed.

Lemma ceiling_policy_witness :
  ∃ s',
    UrlHighlighter.update_url_highlights host_limit_1
      (view_7 two_matches []) false initial = (Ok tt, s') ∧
    7%nat ∈ ignored_views s' ∧
    (∃ msg, trace s' = [Print msg]) ∧
    urls_for_view s' !! 7%nat = None ∧
    UrlHighlighter.update_url_highlights default_host
      (view_7 two_matches []) true
      (after_calls
         [CallOnActivated default_host (view_7 two_matches []);
          CallOpenAllUrls default_host (view_7 two_matches [])] s')
    = (Ok tt,
       after_calls
         [CallOnActivated default_host (view_7 two_matches []);
          CallOpenAllUrls default_host (view_7 two_matches [])] s').
Proof.
  destruct (ceiling_policy host_limit_1 (view_7 two_matches []) false initial)
    as (s' & Hrun & Hin & Htrace & Hnone & Hlater).
  - reflexivity.
  - apply not_elem_of_nil.
  - exists s'. split; [exact Hrun|]. split; [exact Hin|].
    split; [exact Htrace|]. split; [apply Hnone; reflexivity|].
    apply Hlater; [|reflexivity].
    repeat (constructor; [reflexivity|]). constructor.
Defined.

(** Closing another view can end it: with views 1 and 7 ignored in that
    order, closing view 1 deletes the entry at index 1, which is view 7,
    and the next scan of view 7 stores its matches. *)
Example close_of_another_view_unignores :
  let s := mkState ∅ ∅ [1; 7]%nat 1 [] in
  let s' := after (CallOnClose (View.mk 1 (λ _, []) (λ _, "") (λ _, "") []))
              s in
  ignored_views s' = [1%nat] ∧
  stored_matches
    (UrlHighlighter.update_url_highlights default_host
       (view_7 two_matches []) false s').2 (view_7 two_matches [])
    = two_matches.
Proof. by vm_compute. Qed.
